(** * Page interaction controller (script.js): theme toggle, FAQ accordion,
      contact-form validation.

    A shallow embedding of the handlers that script.js attaches once the
    page is parsed, over a small model of the part of the DOM they touch. *)

From Stdlib Require Import NArith Ascii String.
From stdpp Require Import gmap strings list fin_maps.

Set Warnings "-clear-no-such-hyp".

Local Open Scope N_scope.
Local Open Scope nat_scope.

(** ** JavaScript strings

    A JavaScript string is a sequence of UTF-16 code units; [length] counts
    code units and [===] compares them one by one. *)

Abbreviation code_unit := N (only parsing).
Abbreviation jsstring := (list N) (only parsing).

(** A string literal of the source whose characters are all ASCII. *)
Fixpoint js (s : string) : jsstring :=
  match s with
  | EmptyString => []
  | String a s' => N_of_ascii a :: js s'
  end.

Arguments js : simpl never.

(** WhiteSpace and LineTerminator code points of ECMAScript: what
    [String.prototype.trim] strips and what [\s] matches. *)
Definition isWhiteSpace (c : code_unit) : bool :=
  ((9 <=? c) && (c <=? 13) || (c =? 32) || (c =? 160) || (c =? 5760)
   || (8192 <=? c) && (c <=? 8202) || (c =? 8232) || (c =? 8233)
   || (c =? 8239) || (c =? 8287) || (c =? 12288) || (c =? 65279))%N.

Fixpoint trimStart (s : jsstring) : jsstring :=
  match s with
  | c :: s' => if isWhiteSpace c then trimStart s' else s
  | [] => []
  end.

Definition trimEnd (s : jsstring) : jsstring := rev (trimStart (rev s)).

(** [s.trim()] *)
Definition trim (s : jsstring) : jsstring := trimEnd (trimStart s).

(** ** Regular expressions

    The fragment of the regular-expression language that the email pattern
    uses, matched with derivatives.  The pattern is anchored with [^] and
    [$] and has no flags, so [test] succeeds exactly when the whole input
    matches the body of the pattern. *)

Inductive regex : Type :=
| Never
| Eps
| Class (p : code_unit -> bool)
| Seq (r1 r2 : regex)
| Alt (r1 r2 : regex)
| Star (r : regex).

Definition Plus (r : regex) : regex := Seq r (Star r).
Definition Char (c : code_unit) : regex := Class (N.eqb c).

Fixpoint nullable (r : regex) : bool :=
  match r with
  | Never => false
  | Eps => true
  | Class _ => false
  | Seq r1 r2 => nullable r1 && nullable r2
  | Alt r1 r2 => nullable r1 || nullable r2
  | Star _ => true
  end.

Fixpoint deriv (c : code_unit) (r : regex) : regex :=
  match r with
  | Never => Never
  | Eps => Never
  | Class p => if p c then Eps else Never
  | Seq r1 r2 =>
      if nullable r1 then Alt (Seq (deriv c r1) r2) (deriv c r2)
      else Seq (deriv c r1) r2
  | Alt r1 r2 => Alt (deriv c r1) (deriv c r2)
  | Star r' => Seq (deriv c r') (Star r')
  end.

(** [r.test(s)] for an anchored pattern [^r$]. *)
Fixpoint test (r : regex) (s : jsstring) : bool :=
  match s with
  | [] => nullable r
  | c :: s' => test (deriv c r) s'
  end.

(** The class [[^\s@]]. *)
Definition notSpaceOrAt (c : code_unit) : bool :=
  negb (isWhiteSpace c || (c =? 64)%N).

(** [/^[^\s@]+@[^\s@]+\.[^\s@]+$/] *)
Definition emailRegex : regex :=
  Seq (Plus (Class notSpaceOrAt))
    (Seq (Char 64)
       (Seq (Plus (Class notSpaceOrAt))
          (Seq (Char 46) (Plus (Class notSpaceOrAt))))).

(** The language of a pattern: which strings it matches as a whole. *)
Inductive matches : regex -> jsstring -> Prop :=
| matches_Eps : matches Eps []
| matches_Class p c : p c = true -> matches (Class p) [c]
| matches_Seq r1 r2 s1 s2 :
    matches r1 s1 -> matches r2 s2 -> matches (Seq r1 r2) (s1 ++ s2)
| matches_Alt_l r1 r2 s : matches r1 s -> matches (Alt r1 r2) s
| matches_Alt_r r1 r2 s : matches r2 s -> matches (Alt r1 r2) s
| matches_Star_nil r : matches (Star r) []
| matches_Star_app r s1 s2 :
    matches r s1 -> matches (Star r) s2 -> matches (Star r) (s1 ++ s2).

(** ** The document

    An element is addressed by its place in the tree: its index among the
    element children of its parent, followed by the address of the parent.
    The root element has address [[]], and [document.body] is its second
    child. *)

Abbreviation node := (list nat) (only parsing).

Inductive error : Type := TypeError.

(** What the script reads and writes of an element: its identifier, the
    tokens of its class list (the script only asks which tokens are there),
    its text (the elements whose text the script writes hold text only)
    and, for a form control, its value and the default value that
    [form.reset()] brings back. *)
Record element : Type := Element {
  id : string;
  classList : gset string;
  textContent : jsstring;
  value : jsstring;
  defaultValue : jsstring }.

(** The page: the elements of the tree, the index that [getElementById]
    consults, and the canceled flag of the event being dispatched. *)
Record page : Type := Page {
  elems : gmap node element;
  ids : gmap string node;
  defaultPrevented : bool }.

Definition with_classList (f : gset string -> gset string) (e : element) : element :=
  Element (id e) (f (classList e)) (textContent e) (value e) (defaultValue e).

Definition with_textContent (t : jsstring) (e : element) : element :=
  Element (id e) (classList e) t (value e) (defaultValue e).

Definition with_value (f : element -> jsstring) (e : element) : element :=
  Element (id e) (classList e) (textContent e) (f e) (defaultValue e).

(** The token set behind [element.classList]. *)
Module DOMTokenList.
Definition contains (t : string) (l : gset string) : bool := bool_decide (t ∈ l).
Definition add (t : string) (l : gset string) : gset string := l ∪ {[t]}.
Definition remove (t : string) (l : gset string) : gset string := l ∖ {[t]}.
Definition toggle (t : string) (l : gset string) : gset string :=
  if contains t l then remove t l else add t l.
End DOMTokenList.

(** [modify n f p]: the page [p] with [f] applied to the element at [n]. *)
Definition modify (n : node) (f : element -> element) (p : page) : page :=
  Page (alter f n (elems p)) (ids p) (defaultPrevented p).

(** ** Handlers as state transformers that may throw

    A handler runs to completion on the page; when it throws, the changes
    made so far stay. *)

Inductive completion (A : Type) : Type :=
| Normal (a : A)
| Throw (e : error).
Arguments Normal {A} a.
Arguments Throw {A} e.

Definition M (A : Type) : Type := page -> completion A * page.

Definition ret {A} (a : A) : M A := fun p => (Normal a, p).
Definition throw {A} (e : error) : M A := fun p => (Throw e, p).
Definition bind {A B} (c : M A) (k : A -> M B) : M B :=
  fun p => match c p with
           | (Normal a, p') => k a p'
           | (Throw e, p') => (Throw e, p')
           end.

Notation "'do' x <- c ; k" := (bind c (fun x => k))
  (at level 60, x name, c at level 50, k at level 200).
Notation "c ;; k" := (bind c (fun _ => k))
  (at level 100, k at level 200, right associativity).

(** Reading a property of a reference that may be [null]. *)
Definition get {A} (r : option node) (f : element -> A) : M A :=
  fun p => match r with
           | Some n => match elems p !! n with
                       | Some e => (Normal (f e), p)
                       | None => (Throw TypeError, p)
                       end
           | None => (Throw TypeError, p)
           end.

(** Changing the element behind a reference that may be [null]. *)
Definition edit (r : option node) (f : element -> element) : M unit :=
  fun p => match r with
           | Some n => match elems p !! n with
                       | Some _ => (Normal tt, modify n f p)
                       | None => (Throw TypeError, p)
                       end
           | None => (Throw TypeError, p)
           end.

Definition getElementById (s : string) : M (option node) :=
  fun p => (Normal (ids p !! s), p).

Definition document_body : M (option node) :=
  fun p => (Normal (if elems p !! [1] is Some _ then Some [1] else None), p).

Definition querySelectorAll_class (c : string) : M (list node) :=
  fun p => (Normal (filter (fun '(_, e) => c ∈ classList e) (map_to_list (elems p))).*1, p).

Definition sibling (n : node) : option node :=
  match n with
  | i :: parent => Some (S i :: parent)
  | [] => None
  end.

Definition nextElementSibling (r : option node) : M (option node) :=
  fun p => match r with
           | Some n => (Normal (m ← sibling n; _ ← elems p !! m; Some m), p)
           | None => (Throw TypeError, p)
           end.

Definition get_id (r : option node) : M string := get r id.
Definition get_value (r : option node) : M jsstring := get r value.
Definition set_textContent (r : option node) (t : jsstring) : M unit :=
  edit r (with_textContent t).
Definition classList_contains (r : option node) (t : string) : M bool :=
  get r (fun e => DOMTokenList.contains t (classList e)).
Definition classList_toggle (r : option node) (t : string) : M unit :=
  edit r (with_classList (DOMTokenList.toggle t)).
Definition classList_add (r : option node) (t : string) : M unit :=
  edit r (with_classList (DOMTokenList.add t)).
Definition classList_remove (r : option node) (t : string) : M unit :=
  edit r (with_classList (DOMTokenList.remove t)).

(** [e.preventDefault()] on the event being dispatched. *)
Definition preventDefault : M unit :=
  fun p => (Normal tt, Page (elems p) (ids p) true).

(** [n] lies inside [f]: the address of [f] is a proper tail of that of [n]. *)
Definition inside (f n : node) : bool :=
  bool_decide (f `suffix_of` n) && negb (bool_decide (f = n)).

(** The page with every control inside the form [f] back at its default
    value. *)
Definition resetPage (f : node) (p : page) : page :=
  Page (map_imap (fun n e =>
          Some (if inside f n then with_value defaultValue e else e))
          (elems p))
       (ids p) (defaultPrevented p).

(** [form.reset()] *)
Definition reset (r : option node) : M unit :=
  fun p => match r with
           | Some f => (Normal tt, resetPage f p)
           | None => (Throw TypeError, p)
           end.

(** ** The script

    The references that the script takes when it starts. *)

Record bindings : Type := Bindings {
  themeToggleBtn : option node;
  body : option node;
  faqQuestions : list node;
  form : option node;
  nameInput : option node;
  emailInput : option node;
  passwordInput : option node;
  confirmPasswordInput : option node;
  successMessage : option node }.

(** [x.addEventListener(...)] needs [x] to be an element. *)
Definition addEventListener (r : option node) : M unit := get r (fun _ => tt).

(** The body of the [DOMContentLoaded] callback: the lookups, and the
    points at which attaching a listener throws on a missing element. *)
Definition init : M bindings :=
  do themeToggleBtn <- getElementById "theme-toggle";
  do body <- document_body;
  addEventListener themeToggleBtn;;
  do faqQuestions <- querySelectorAll_class "faq-question";
  do form <- getElementById "contact-form";
  do nameInput <- getElementById "name";
  do emailInput <- getElementById "email";
  do passwordInput <- getElementById "password";
  do confirmPasswordInput <- getElementById "confirm-password";
  do successMessage <- getElementById "form-success-message";
  addEventListener form;;
  addEventListener nameInput;;
  addEventListener emailInput;;
  addEventListener passwordInput;;
  addEventListener confirmPasswordInput;;
  ret (Bindings themeToggleBtn body faqQuestions form nameInput emailInput
         passwordInput confirmPasswordInput successMessage).

(** The text after the exclamation mark is stored in the file as the four
    characters U+00F0 U+0178 U+017D U+2030. *)
Definition successText : jsstring :=
  js "Form submitted successfully! " ++ [240; 376; 381; 8240]%N.

Section Handlers.

Variable b : bindings.

(** Click on the theme toggle (script.js 15-23). *)
Definition themeToggleBtn_click : M unit :=
  classList_toggle (body b) "dark-mode";;
  do dark <- classList_contains (body b) "dark-mode";
  if dark then set_textContent (themeToggleBtn b) (js "Switch to Light Mode")
  else set_textContent (themeToggleBtn b) (js "Switch to Dark Mode").

(** Click on one FAQ question (script.js 34-40). *)
Definition faqQuestion_click (question : option node) : M unit :=
  do answer <- nextElementSibling question;
  classList_toggle answer "show";;
  classList_toggle question "active".

(** script.js 62-66 *)
Definition displayError (inputElement : option node) (errorMessage : jsstring) : M unit :=
  do i <- get_id inputElement;
  do errorSpan <- getElementById (i +:+ "-error");
  set_textContent errorSpan errorMessage;;
  classList_add inputElement "invalid".

(** script.js 69-73 *)
Definition clearError (inputElement : option node) : M unit :=
  do i <- get_id inputElement;
  do errorSpan <- getElementById (i +:+ "-error");
  set_textContent errorSpan [];;
  classList_remove inputElement "invalid".

(** script.js 76-112; [isValid] is threaded through the four checks. *)
Definition validateForm : M bool :=
  let isValid := true in
  clearError (nameInput b);;
  clearError (emailInput b);;
  clearError (passwordInput b);;
  clearError (confirmPasswordInput b);;
  set_textContent (successMessage b) [];;
  do name <- get_value (nameInput b);
  do isValid <-
    (if length (trim name) <? 3
     then displayError (nameInput b) (js "Name must be at least 3 characters long.");;
          ret false
     else ret isValid);
  do email <- get_value (emailInput b);
  do isValid <-
    (if negb (test emailRegex (trim email))
     then displayError (emailInput b) (js "Please enter a valid email address.");;
          ret false
     else ret isValid);
  do password <- get_value (passwordInput b);
  do isValid <-
    (if length password <? 8
     then displayError (passwordInput b) (js "Password must be at least 8 characters.");;
          ret false
     else ret isValid);
  do confirm <- get_value (confirmPasswordInput b);
  do password <- get_value (passwordInput b);
  do isValid <-
    (if negb (bool_decide (confirm = password))
     then displayError (confirmPasswordInput b) (js "Passwords do not match.");;
          ret false
     else ret isValid);
  ret isValid.

(** The submit listener of the form (script.js 115-128). *)
Definition form_submit : M unit :=
  preventDefault;;
  do ok <- validateForm;
  if ok then
    set_textContent (successMessage b) successText;;
    reset (form b)
  else
    set_textContent (successMessage b) [].

(** The four keyup listeners (script.js 132-155). *)
Definition nameInput_keyup : M unit :=
  do name <- get_value (nameInput b);
  if 3 <=? length (trim name) then clearError (nameInput b) else ret tt.

Definition emailInput_keyup : M unit :=
  do email <- get_value (emailInput b);
  if test emailRegex (trim email) then clearError (emailInput b) else ret tt.

Definition passwordInput_keyup : M unit :=
  do password <- get_value (passwordInput b);
  if 8 <=? length password then clearError (passwordInput b) else ret tt.

Definition confirmPasswordInput_keyup : M unit :=
  do confirm <- get_value (confirmPasswordInput b);
  do password <- get_value (passwordInput b);
  if bool_decide (confirm = password) then clearError (confirmPasswordInput b)
  else ret tt.

End Handlers.

(** The events the script listens to. *)
Inductive event : Type :=
| Click_themeToggleBtn
| Click_faqQuestion (question : node)
| Submit_form
| Keyup_nameInput
| Keyup_emailInput
| Keyup_passwordInput
| Keyup_confirmPasswordInput.

(** The listener that the script has attached for an event. *)
Definition listener (b : bindings) (ev : event) : M unit :=
  match ev with
  | Click_themeToggleBtn => themeToggleBtn_click b
  | Click_faqQuestion q =>
      if bool_decide (q ∈ faqQuestions b) then faqQuestion_click (Some q) else ret tt
  | Submit_form => form_submit b
  | Keyup_nameInput => nameInput_keyup b
  | Keyup_emailInput => emailInput_keyup b
  | Keyup_passwordInput => passwordInput_keyup b
  | Keyup_confirmPasswordInput => confirmPasswordInput_keyup b
  end.

(** A fresh event, not canceled. *)
Definition unprevented (p : page) : page := Page (elems p) (ids p) false.

(** Dispatching an event: the event is created, then its listener runs. *)
Definition dispatch (b : bindings) (ev : event) : M unit :=
  (fun p => (Normal tt, unprevented p));;
  listener b ev.

(** The page a handler leaves behind, whether it returns or throws. *)
Definition after {A} (c : M A) (p : page) : page := (c p).2.

(** ** What a visitor observes *)

(** The element behind a reference, if any. *)
Definition at_ref (p : page) (r : option node) : option element :=
  n ← r; elems p !! n.

Definition hasClass (p : page) (r : option node) (t : string) : bool :=
  match at_ref p r with
  | Some e => DOMTokenList.contains t (classList e)
  | None => false
  end.

Definition textOf (p : page) (r : option node) : jsstring :=
  match at_ref p r with Some e => textContent e | None => [] end.

Definition valueOf (p : page) (r : option node) : jsstring :=
  match at_ref p r with Some e => value e | None => [] end.

Definition modify_ref (r : option node) (g : element -> element) (p : page) : page :=
  match r with Some n => modify n g p | None => p end.

(** The four validated fields. *)
Inductive field : Type := Name | Email | Password | ConfirmPassword.

Global Instance field_eq_dec : EqDecision field.
Proof. solve_decision. Defined.

Definition fieldId (f : field) : string :=
  match f with
  | Name => "name"
  | Email => "email"
  | Password => "password"
  | ConfirmPassword => "confirm-password"
  end.

Definition input (b : bindings) (f : field) : option node :=
  match f with
  | Name => nameInput b
  | Email => emailInput b
  | Password => passwordInput b
  | ConfirmPassword => confirmPasswordInput b
  end.

Definition errorSpan (p : page) (f : field) : option node :=
  ids p !! (fieldId f +:+ "-error").

Definition errorText (p : page) (f : field) : jsstring := textOf p (errorSpan p f).
Definition invalid (b : bindings) (p : page) (f : field) : bool :=
  hasClass p (input b f) "invalid".
Definition fieldValue (b : bindings) (p : page) (f : field) : jsstring :=
  valueOf p (input b f).
Definition successShown (b : bindings) (p : page) : jsstring :=
  textOf p (successMessage b).

(** The condition under which each check of [validateForm] leaves its
    field alone, on the values currently in the inputs. *)
Definition rule (b : bindings) (p : page) (f : field) : bool :=
  match f with
  | Name => negb (length (trim (fieldValue b p Name)) <? 3)
  | Email => test emailRegex (trim (fieldValue b p Email))
  | Password => negb (length (fieldValue b p Password) <? 8)
  | ConfirmPassword =>
      bool_decide (fieldValue b p ConfirmPassword = fieldValue b p Password)
  end.

Definition message (f : field) : jsstring :=
  match f with
  | Name => js "Name must be at least 3 characters long."
  | Email => js "Please enter a valid email address."
  | Password => js "Password must be at least 8 characters."
  | ConfirmPassword => js "Passwords do not match."
  end.

(** ** The page structure the script relies on *)

(** An element found through the index carries the identifier it was
    looked up by. *)
Definition ids_ok (p : page) : Prop :=
  map_Forall (fun s n => id <$> elems p !! n = Some s) (ids p).

(** The identifiers the script looks up. *)
Definition requiredIds : list string :=
  ["theme-toggle"; "contact-form"; "form-success-message";
   "name"; "email"; "password"; "confirm-password";
   "name-error"; "email-error"; "password-error"; "confirm-password-error"].

(** The script's references are those of the page, and every element it
    looks up is there. *)
Definition ready (b : bindings) (p : page) : Prop :=
  ids_ok p
  /\ (forall f, input b f = ids p !! fieldId f)
  /\ themeToggleBtn b = ids p !! "theme-toggle"
  /\ form b = ids p !! "contact-form"
  /\ successMessage b = ids p !! "form-success-message"
  /\ Forall (fun s => is_Some (ids p !! s)) requiredIds.

Definition keeps_id (g : element -> element) : Prop := forall e, id (g e) = id e.

(** ** The pages the handlers leave behind *)

Definition darkMode (b : bindings) (p : page) : bool := hasClass p (body b) "dark-mode".
Definition label (b : bindings) (p : page) : jsstring := textOf p (themeToggleBtn b).

(** The label that names the mode opposite to the current one. *)
Definition labelFor (dark : bool) : jsstring :=
  if dark then js "Switch to Light Mode" else js "Switch to Dark Mode".

Definition themeToggled (b : bindings) (p : page) : page :=
  modify_ref (themeToggleBtn b) (with_textContent (labelFor (negb (darkMode b p))))
    (modify_ref (body b) (with_classList (DOMTokenList.toggle "dark-mode")) p).

Definition answerShown (p : page) (question : node) : bool :=
  hasClass p (sibling question) "show".
Definition questionActive (p : page) (question : node) : bool :=
  hasClass p (Some question) "active".

Definition faqToggled (question : node) (p : page) : page :=
  modify_ref (Some question) (with_classList (DOMTokenList.toggle "active"))
    (modify_ref (sibling question) (with_classList (DOMTokenList.toggle "show")) p).

(** The page with the error text of field [f] set to [t] and the class
    list of its input changed by [cl]. *)
Definition marked (b : bindings) (f : field) (t : jsstring)
    (cl : gset string -> gset string) (p : page) : page :=
  modify_ref (input b f) (with_classList cl)
    (modify_ref (errorSpan p f) (with_textContent t) p).

(** The page after [clearError] on the input of field [f]. *)
Definition cleared (b : bindings) (f : field) (p : page) : page :=
  marked b f [] (DOMTokenList.remove "invalid") p.

(** The page after [displayError] on the input of field [f]. *)
Definition displayed (b : bindings) (f : field) (msg : jsstring) (p : page) : page :=
  marked b f msg (DOMTokenList.add "invalid") p.

Definition successSet (b : bindings) (t : jsstring) (p : page) : page :=
  modify_ref (successMessage b) (with_textContent t) p.

Definition allCleared (b : bindings) (p : page) : page :=
  successSet b []
    (cleared b ConfirmPassword (cleared b Password (cleared b Email (cleared b Name p)))).

(** The page after the check of field [f] whose outcome is [ok]. *)
Definition checked (b : bindings) (f : field) (ok : bool) (p : page) : page :=
  if ok then p else displayed b f (message f) p.

(** The page after a validation pass on [p]. *)
Definition validated (b : bindings) (p : page) : page :=
  checked b ConfirmPassword (rule b p ConfirmPassword)
    (checked b Password (rule b p Password)
       (checked b Email (rule b p Email)
          (checked b Name (rule b p Name) (allCleared b p)))).

Definition allRules (b : bindings) (p : page) : bool :=
  rule b p Name && rule b p Email && rule b p Password && rule b p ConfirmPassword.

Definition keyup (b : bindings) (f : field) : M unit :=
  match f with
  | Name => nameInput_keyup b
  | Email => emailInput_keyup b
  | Password => passwordInput_keyup b
  | ConfirmPassword => confirmPasswordInput_keyup b
  end.

(** The visitor changes the content of an input. *)
Definition typed (b : bindings) (f : field) (v : jsstring) (p : page) : page :=
  modify_ref (input b f) (with_value (fun _ => v)) p.

Definition prevented (p : page) : page := Page (elems p) (ids p) true.

Definition resetRef (r : option node) (p : page) : page :=
  match r with Some f => resetPage f p | None => p end.

(** The page after the submit handler. *)
Definition submitted (b : bindings) (p : page) : page :=
  if allRules b p
  then resetRef (form b) (successSet b successText (validated b (prevented p)))
  else successSet b [] (validated b (prevented p)).

Definition defaultOf (p : page) (r : option node) : jsstring :=
  match at_ref p r with Some e => defaultValue e | None => [] end.

(** The input of field [f] lies inside the form. *)
Definition inForm (b : bindings) (f : field) : bool :=
  match form b, input b f with
  | Some fm, Some n => inside fm n
  | _, _ => false
  end.

(** ** The error text and the invalid marker go together *)

Definition consistent (b : bindings) (p : page) : Prop :=
  forall f, errorText p f <> [] <-> invalid b p f = true.

(** What can happen to the page: an event the script listens to, or the
    visitor changing the content of an input. *)
Inductive action : Type :=
| Fire (ev : event)
| Type_into (f : field) (v : jsstring).

Definition act (b : bindings) (a : action) (p : page) : page :=
  match a with
  | Fire ev => after (dispatch b ev) p
  | Type_into f v => typed b f v p
  end.

Definition play (b : bindings) (l : list action) (p : page) : page :=
  foldl (fun q a => act b a q) p l.

Definition same_marks (b : bindings) (p p' : page) : Prop :=
  forall f, errorText p' f = errorText p f /\ invalid b p' f = invalid b p f.

(** ** A concrete page *)

Definition el (i : string) (classes : list string) (text v : jsstring) : element :=
  Element i (list_to_set classes) text v [].

Definition demoPage (label : jsstring) (bodyClasses : list string)
    (name email password confirm : jsstring) : page :=
  Page
    (list_to_map
       [ ([], el "" [] [] []);
         ([0], el "" [] [] []);
         ([1], el "" bodyClasses [] []);
         ([0; 1], el "theme-toggle" [] label []);
         ([1; 1], el "faq" [] [] []);
         ([0; 1; 1], el "" ["faq-question"] (js "Q1") []);
         ([1; 1; 1], el "" ["faq-answer"] (js "A1") []);
         ([2; 1; 1], el "" ["faq-question"] (js "Q2") []);
         ([3; 1; 1], el "" ["faq-answer"] (js "A2") []);
         ([2; 1], el "contact-form" [] [] []);
         ([0; 2; 1], el "name" [] [] name);
         ([1; 2; 1], el "name-error" ["error"] [] []);
         ([2; 2; 1], el "email" [] [] email);
         ([3; 2; 1], el "email-error" ["error"] [] []);
         ([4; 2; 1], el "password" [] [] password);
         ([5; 2; 1], el "password-error" ["error"] [] []);
         ([6; 2; 1], el "confirm-password" [] [] confirm);
         ([7; 2; 1], el "confirm-password-error" ["error"] [] []);
         ([3; 1], el "form-success-message" [] [] []) ])
    (list_to_map
       [ ("theme-toggle", [0; 1]); ("faq", [1; 1]); ("contact-form", [2; 1]);
         ("name", [0; 2; 1]); ("name-error", [1; 2; 1]);
         ("email", [2; 2; 1]); ("email-error", [3; 2; 1]);
         ("password", [4; 2; 1]); ("password-error", [5; 2; 1]);
         ("confirm-password", [6; 2; 1]); ("confirm-password-error", [7; 2; 1]);
         ("form-success-message", [3; 1]) ])
    false.

Definition demoBindings : bindings :=
  Bindings (Some [0; 1]) (Some [1]) [[2; 1; 1]; [0; 1; 1]] (Some [2; 1])
    (Some [0; 2; 1]) (Some [2; 2; 1]) (Some [4; 2; 1]) (Some [6; 2; 1]) (Some [3; 1]).

(** The empty form on a light page. *)
Definition emptyForm : page := demoPage (js "Switch to Dark Mode") [] [] [] [] [].

(** A page whose toggle button starts with a label of its own. *)
Definition ownLabel : page := demoPage (js "Toggle Theme") [] [] [] [] [].

(** Two questions with their answers, the first one open. *)
Definition faqPage : page :=
  modify [1; 1; 1] (with_classList (DOMTokenList.add "show"))
    (modify [0; 1; 1] (with_classList (DOMTokenList.add "active")) emptyForm).

Definition filled (name email password confirm : string) : page :=
  demoPage (js "Switch to Dark Mode") [] (js name) (js email) (js password) (js confirm).

Definition shortName : page := filled "Al" "a@b.com" "longpass1" "longpass1".
Definition alice : page := filled "Alice" "alice@example.com" "password1" "password1".
Definition mismatch : page := filled "Alice" "alice@example.com" "password1" "password2".
Definition blankName : page := filled "   " "a@b.com" "longpass1" "longpass1".
Definition sevenChars : page := filled "Bob" "a@b.com" "1234567" "1234567".

(** The form of [alice] on a page whose markup gives the name input the
    default value "Jane". *)
Definition janeDefault : page :=
  modify [0; 2; 1]
    (fun e => Element (id e) (classList e) (textContent e) (value e) (js "Jane"))
    alice.

(** The form of [alice] with an error and a success message left on it. *)
Definition aliceStale : page :=
  modify [3; 1] (with_textContent (js "sent"))
    (modify [1; 2; 1] (with_textContent (js "old error"))
       (modify [0; 2; 1] (with_classList (DOMTokenList.add "invalid")) alice)).

(** ** What no handler changes *)

(** A computation keeps a relation between the page before and the page
    after, also when it throws. *)
Definition keeps (R : page -> page -> Prop) {A} (c : M A) : Prop :=
  forall p, R p (c p).2.

(** A relation that holds when nothing happens and through steps taken one
    after the other. *)
Definition steady (R : page -> page -> Prop) : Prop :=
  (forall p, R p p) /\ (forall p1 p2 p3, R p1 p2 -> R p2 p3 -> R p1 p3).

(** A relation that writing a text or changing a class list keeps. *)
Definition allows_marks (R : page -> page -> Prop) : Prop :=
  (forall t n p, R p (modify n (with_textContent t) p))
  /\ (forall f n p, R p (modify n (with_classList f) p)).

(** Every element holds the value it held. *)
Definition same_values (p p' : page) : Prop :=
  forall n, (value <$> elems p' !! n) = (value <$> elems p !! n).

(** The event being dispatched is canceled as it was. *)
Definition same_flag (p p' : page) : Prop :=
  defaultPrevented p' = defaultPrevented p.

(** A computation that throws on every page. *)
Definition throws {A} (c : M A) : Prop := forall p, (c p).1 = Throw TypeError.

Global Instance event_eq_dec : EqDecision event.
Proof. solve_decision. Defined.

(** The events of the form: submission and the four key releases. *)
Definition formEvent (ev : event) : bool :=
  match ev with
  | Click_themeToggleBtn | Click_faqQuestion _ => false
  | _ => true
  end.

(** Between two pages nothing of the theme toggle and of the FAQ differs:
    the index is the same, every class token other than "invalid" is where
    it was, and the label of the toggle button is the same. *)
Definition quiet (b : bindings) (p p' : page) : Prop :=
  ids p' = ids p
  /\ (forall r t, t <> "invalid" -> hasClass p' r t = hasClass p r t)
  /\ label b p' = label b p.

(** The elements without which the script cannot attach its listeners. *)
Definition listenedIds : list string :=
  ["theme-toggle"; "contact-form"; "name"; "email"; "password"; "confirm-password"].

(** A string accepted by the email pattern: a local part, [@], a domain, a
    dot and a last label; the three parts are non-empty and hold neither
    white space nor [@]. *)
Definition address (s : jsstring) : Prop :=
  exists a d l,
    s = a ++ 64%N :: d ++ 46%N :: l
    /\ a <> [] /\ d <> [] /\ l <> []
    /\ Forall (fun c => notSpaceOrAt c = true) (a ++ d ++ l).

(** ** Pages with something missing, and a form with padded values *)

(** The page of [emptyForm] without its success message element. *)
Definition noSuccess : page :=
  Page (delete [3; 1] (elems emptyForm))
       (delete "form-success-message" (ids emptyForm)) false.

Definition noSuccessBindings : bindings :=
  Bindings (Some [0; 1]) (Some [1]) [[2; 1; 1]; [0; 1; 1]] (Some [2; 1])
    (Some [0; 2; 1]) (Some [2; 2; 1]) (Some [4; 2; 1]) (Some [6; 2; 1]) None.

(** The page of [emptyForm] without the error display of the name. *)
Definition noNameError : page :=
  Page (delete [1; 2; 1] (elems emptyForm))
       (delete "name-error" (ids emptyForm)) false.

(** The page of [emptyForm] without the password input. *)
Definition noPassword : page :=
  Page (delete [4; 2; 1] (elems emptyForm))
       (delete "password" (ids emptyForm)) false.

Definition padded : page := filled "  Alice " " alice@example.com  " "password1" "password1".

(** * Properties *)

Example email_ok : test emailRegex (js "alice@example.com") = true.
Proof. vm_compute. reflexivity. Qed.

Example email_bad : test emailRegex (js "alice@example") = false.
Proof. vm_compute. reflexivity. Qed.

Example trim_ex : trim (js "  Al ") = js "Al".
Proof. vm_compute. reflexivity. Qed.

(** ** The matcher and the language of a pattern *)

Lemma matches_Never_inv (s : jsstring) : ~ matches Never s.
Proof. inversion 1. Qed.

Lemma matches_Eps_inv (s : jsstring) : matches Eps s -> s = [].
Proof. by inversion 1. Qed.

Lemma matches_Class_inv p (s : jsstring) :
  matches (Class p) s -> exists c, s = [c] /\ p c = true.
Proof. inversion 1; subst; eauto. Qed.

Lemma matches_Seq_inv r1 r2 (s : jsstring) :
  matches (Seq r1 r2) s ->
  exists s1 s2, s = s1 ++ s2 /\ matches r1 s1 /\ matches r2 s2.
Proof. inversion 1; subst; eauto. Qed.

Lemma matches_Alt_inv r1 r2 (s : jsstring) :
  matches (Alt r1 r2) s -> matches r1 s \/ matches r2 s.
Proof. inversion 1; subst; auto. Qed.

Lemma nullable_matches (r : regex) : nullable r = true <-> matches r [].
Proof.
  induction r as [| |p|r1 IH1 r2 IH2|r1 IH1 r2 IH2|r IH]; simpl.
  - split; [done|]. by intros H%matches_Never_inv.
  - split; [constructor|done].
  - split; [done|]. by intros (c & ? & _)%matches_Class_inv.
  - rewrite andb_true_iff, IH1, IH2. split.
    + intros [H1 H2]. by apply (matches_Seq _ _ [] []).
    + intros (s1 & s2 & Heq & H1 & H2)%matches_Seq_inv.
      symmetry in Heq. apply app_eq_nil in Heq as [-> ->]. done.
  - rewrite orb_true_iff, IH1, IH2. split.
    + intros [H|H]; [by apply matches_Alt_l|by apply matches_Alt_r].
    + by intros H%matches_Alt_inv.
  - split; [constructor|done].
Qed.

Lemma matches_Star_cons (r : regex) (c : code_unit) (s : jsstring) :
  matches (Star r) (c :: s) ->
  exists s1 s2, s = s1 ++ s2 /\ matches r (c :: s1) /\ matches (Star r) s2.
Proof.
  intros H. remember (Star r) as r' eqn:Hr. remember (c :: s) as w eqn:Hw.
  induction H as [| | | | | |r0 s1 s2 H1 _ H2 IH2]; try discriminate.
  injection Hr as ->. destruct s1 as [|c' s1]; simpl in Hw.
  - by apply IH2.
  - injection Hw as -> <-. eauto.
Qed.

Lemma deriv_matches (c : code_unit) (r : regex) (s : jsstring) :
  matches (deriv c r) s <-> matches r (c :: s).
Proof.
  revert s. induction r as [| |p|r1 IH1 r2 IH2|r1 IH1 r2 IH2|r IH]; intros s; simpl.
  - split; by intros H%matches_Never_inv.
  - split; [by intros H%matches_Never_inv|by intros H%matches_Eps_inv].
  - destruct (p c) eqn:Hp; split.
    + intros ->%matches_Eps_inv. by constructor.
    + intros (c' & [= -> ->] & _)%matches_Class_inv. constructor.
    + by intros H%matches_Never_inv.
    + intros (c' & [= -> ->] & ?)%matches_Class_inv. congruence.
  - assert (Hl : matches (Seq (deriv c r1) r2) s -> matches (Seq r1 r2) (c :: s)).
    { intros (s1 & s2 & -> & Ha & Hb)%matches_Seq_inv.
      apply IH1 in Ha. by apply (matches_Seq _ _ (c :: s1) s2). }
    destruct (nullable r1) eqn:Hn.
    + split.
      * intros [H|H]%matches_Alt_inv; [by apply Hl|].
        apply IH2 in H. apply nullable_matches in Hn.
        by apply (matches_Seq _ _ [] (c :: s)).
      * intros (s1 & s2 & Heq & Ha & Hb)%matches_Seq_inv.
        destruct s1 as [|c' s1]; simpl in Heq.
        -- subst. apply matches_Alt_r. by apply IH2.
        -- injection Heq as -> ->. apply matches_Alt_l.
           constructor; [by apply IH1|done].
    + split; [exact Hl|].
      intros (s1 & s2 & Heq & Ha & Hb)%matches_Seq_inv.
      destruct s1 as [|c' s1]; simpl in Heq.
      * apply nullable_matches in Ha. congruence.
      * injection Heq as -> ->. constructor; [by apply IH1|done].
  - split; intros [H|H]%matches_Alt_inv;
      solve [apply matches_Alt_l; by apply IH1 | apply matches_Alt_r; by apply IH2].
  - split.
    + intros (s1 & s2 & -> & Ha & Hb)%matches_Seq_inv.
      apply IH in Ha. by apply (matches_Star_app _ (c :: s1) s2).
    + intros H. apply matches_Star_cons in H as (s1 & s2 & -> & Ha & Hb).
      constructor; [by apply IH|done].
Qed.

(** The derivative matcher decides the language of the pattern. *)
Lemma test_matches (r : regex) (s : jsstring) : test r s = true <-> matches r s.
Proof.
  revert r. induction s as [|c s IH]; intros r; simpl.
  - apply nullable_matches.
  - rewrite IH. apply deriv_matches.
Qed.

Lemma matches_Star_Class (p : code_unit -> bool) (s : jsstring) :
  matches (Star (Class p)) s <-> Forall (fun c => p c = true) s.
Proof.
  split.
  - intros H. remember (Star (Class p)) as r eqn:Hr.
    induction H as [| | | | | |r0 s1 s2 H1 _ H2 IH2]; try discriminate; [constructor|].
    injection Hr as ->. apply matches_Class_inv in H1 as (c & -> & Hc).
    constructor; [done|by apply IH2].
  - induction 1 as [|c l Hc _ IH]; [constructor|].
    apply (matches_Star_app _ [c] l); [by constructor|done].
Qed.

Lemma matches_Plus_Class (p : code_unit -> bool) (s : jsstring) :
  matches (Plus (Class p)) s <-> s <> [] /\ Forall (fun c => p c = true) s.
Proof.
  unfold Plus. split.
  - intros (s1 & s2 & -> & (c & -> & Hc)%matches_Class_inv & Hb)%matches_Seq_inv.
    split; [done|]. constructor; [done|by apply matches_Star_Class].
  - intros [Hne H]. destruct H as [|c l Hc Hl]; [done|].
    apply (matches_Seq _ _ [c] l); [by constructor|by apply matches_Star_Class].
Qed.

(** What the email rule accepts: a local part, [@], a domain, a dot and a
    last label, the three parts non-empty and free of white space and of
    [@]. *)
Lemma emailRegex_accepts (s : jsstring) :
  test emailRegex s = true <->
  exists a d l,
    s = a ++ 64%N :: d ++ 46%N :: l
    /\ a <> [] /\ d <> [] /\ l <> []
    /\ Forall (fun c => notSpaceOrAt c = true) (a ++ d ++ l).
Proof.
  rewrite test_matches. unfold emailRegex, Char. split.
  - intros (a & s2 & -> & Ha & H2)%matches_Seq_inv.
    apply matches_Seq_inv in H2 as (x & s3 & -> & Hx & H3).
    apply matches_Seq_inv in H3 as (d & s4 & -> & Hd & H4).
    apply matches_Seq_inv in H4 as (y & l & -> & Hy & Hl).
    apply matches_Class_inv in Hx as (c1 & -> & <-%N.eqb_eq).
    apply matches_Class_inv in Hy as (c2 & -> & <-%N.eqb_eq).
    apply matches_Plus_Class in Ha as [? ?], Hd as [? ?], Hl as [? ?].
    exists a, d, l. rewrite !Forall_app. done.
  - intros (a & d & l & -> & Ha & Hd & Hl & Hall).
    rewrite !Forall_app in Hall. destruct Hall as (Fa & Fd & Fl).
    apply matches_Seq; [by apply matches_Plus_Class|].
    apply (matches_Seq _ _ [64%N]); [constructor; by apply N.eqb_eq|].
    apply matches_Seq; [by apply matches_Plus_Class|].
    apply (matches_Seq _ _ [46%N]); [constructor; by apply N.eqb_eq|].
    by apply matches_Plus_Class.
Qed.

(** ** Pages with the required structure *)

Ltac solve_ids_ok := unfold ids_ok; apply (bool_decide_unpack _); vm_compute; exact I.

Ltac solve_ready :=
  split; [solve_ids_ok|];
  split; [intros []; vm_compute; reflexivity|];
  do 3 (split; [vm_compute; reflexivity|]);
  repeat (apply Forall_cons; split; [vm_compute; eauto|]); constructor.

Lemma emptyForm_init : init emptyForm = (Normal demoBindings, emptyForm).
Proof. vm_compute. reflexivity. Qed.

Lemma emptyForm_ready : ready demoBindings emptyForm.
Proof. solve_ready. Qed.

(** ** Reading a page after a change *)

Section PageLemmas.

Implicit Types (p : page) (r : option node) (g : element -> element).

Lemma at_ref_modify_ref r g p r' :
  at_ref (modify_ref r g p) r' =
    if decide (r = r') then g <$> at_ref p r' else at_ref p r'.
Proof.
  destruct r as [n|]; destruct r' as [m|]; simpl.
  - rewrite lookup_alter. repeat case_decide; simplify_eq; done.
  - done.
  - done.
  - done.
Qed.

Lemma ids_modify_ref r g p : ids (modify_ref r g p) = ids p.
Proof. destruct r; reflexivity. Qed.

Lemma defaultPrevented_modify_ref r g p :
  defaultPrevented (modify_ref r g p) = defaultPrevented p.
Proof. destruct r; reflexivity. Qed.

Lemma hasClass_keep r g p r' t :
  (forall e, classList (g e) = classList e) ->
  hasClass (modify_ref r g p) r' t = hasClass p r' t.
Proof.
  intros Hg. unfold hasClass. rewrite at_ref_modify_ref.
  case_decide; [|done]. destruct (at_ref p r'); simpl; [|done]. by rewrite Hg.
Qed.

Lemma textOf_keep r g p r' :
  (forall e, textContent (g e) = textContent e) ->
  textOf (modify_ref r g p) r' = textOf p r'.
Proof.
  intros Hg. unfold textOf. rewrite at_ref_modify_ref.
  case_decide; [|done]. destruct (at_ref p r'); simpl; [|done]. by rewrite Hg.
Qed.

Lemma valueOf_keep r g p r' :
  (forall e, value (g e) = value e) ->
  valueOf (modify_ref r g p) r' = valueOf p r'.
Proof.
  intros Hg. unfold valueOf. rewrite at_ref_modify_ref.
  case_decide; [|done]. destruct (at_ref p r'); simpl; [|done]. by rewrite Hg.
Qed.

Lemma hasClass_other r g p r' t :
  r <> r' -> hasClass (modify_ref r g p) r' t = hasClass p r' t.
Proof.
  intros Hne. unfold hasClass. rewrite at_ref_modify_ref. by case_decide.
Qed.

Lemma textOf_other r g p r' :
  r <> r' -> textOf (modify_ref r g p) r' = textOf p r'.
Proof.
  intros Hne. unfold textOf. rewrite at_ref_modify_ref. by case_decide.
Qed.

Lemma textOf_set r t p :
  is_Some (at_ref p r) -> textOf (modify_ref r (with_textContent t) p) r = t.
Proof.
  intros [e He]. unfold textOf. rewrite at_ref_modify_ref.
  case_decide; [|done]. by rewrite He.
Qed.

Lemma hasClass_token r f p r' (t' : string) :
  (forall l, DOMTokenList.contains t' (f l) = DOMTokenList.contains t' l) ->
  hasClass (modify_ref r (with_classList f) p) r' t' = hasClass p r' t'.
Proof.
  intros Hf. unfold hasClass. rewrite at_ref_modify_ref.
  case_decide; [|done]. destruct (at_ref p r'); simpl; [|done]. apply Hf.
Qed.

Lemma contains_toggle_other t t' l :
  t <> t' ->
  DOMTokenList.contains t' (DOMTokenList.toggle t l) = DOMTokenList.contains t' l.
Proof.
  intros Hne. unfold DOMTokenList.toggle, DOMTokenList.contains,
    DOMTokenList.add, DOMTokenList.remove.
  destruct (bool_decide_reflect (t ∈ l)); apply bool_decide_ext; set_solver.
Qed.

Lemma contains_toggle t l :
  DOMTokenList.contains t (DOMTokenList.toggle t l) = negb (DOMTokenList.contains t l).
Proof.
  unfold DOMTokenList.toggle, DOMTokenList.contains,
    DOMTokenList.add, DOMTokenList.remove.
  destruct (bool_decide_reflect (t ∈ l)); simpl.
  - apply bool_decide_eq_false. set_solver.
  - apply bool_decide_eq_true. set_solver.
Qed.

Lemma contains_add t l : DOMTokenList.contains t (DOMTokenList.add t l) = true.
Proof. apply bool_decide_eq_true. unfold DOMTokenList.add. set_solver. Qed.

Lemma contains_remove t l : DOMTokenList.contains t (DOMTokenList.remove t l) = false.
Proof. apply bool_decide_eq_false. unfold DOMTokenList.remove. set_solver. Qed.

Lemma toggle_toggle t l : DOMTokenList.toggle t (DOMTokenList.toggle t l) = l.
Proof.
  unfold DOMTokenList.toggle, DOMTokenList.contains,
    DOMTokenList.add, DOMTokenList.remove.
  destruct (bool_decide_reflect (t ∈ l)); cbv iota.
  - rewrite bool_decide_eq_false_2 by set_solver.
    apply set_eq; intros x; destruct (decide (x = t)); set_solver.
  - rewrite bool_decide_eq_true_2 by set_solver. set_solver.
Qed.

Lemma hasClass_set r f p t :
  hasClass (modify_ref r (with_classList f) p) r t =
    match at_ref p r with
    | Some e => DOMTokenList.contains t (f (classList e))
    | None => false
    end.
Proof.
  unfold hasClass. rewrite at_ref_modify_ref.
  case_decide; [|done]. by destruct (at_ref p r).
Qed.

(** Running the primitives. *)

Lemma edit_run r g p :
  is_Some (at_ref p r) -> edit r g p = (Normal tt, modify_ref r g p).
Proof.
  intros [e He]. destruct r as [n|]; simpl in *; [|done].
  unfold edit. by rewrite He.
Qed.

Lemma edit_throw r g p :
  at_ref p r = None -> edit r g p = (Throw TypeError, p).
Proof.
  intros He. destruct r as [n|]; simpl in *; [|done].
  unfold edit. by rewrite He.
Qed.

Lemma get_run {A} r (f : element -> A) p e :
  at_ref p r = Some e -> get r f p = (Normal (f e), p).
Proof.
  intros He. destruct r as [n|]; simpl in *; [|done].
  unfold get. by rewrite He.
Qed.

Lemma get_throw {A} r (f : element -> A) p :
  at_ref p r = None -> get r f p = (Throw TypeError, p).
Proof.
  intros He. destruct r as [n|]; simpl in *; [|done].
  unfold get. by rewrite He.
Qed.

Lemma is_Some_at_ref_modify_ref r g p r' :
  is_Some (at_ref (modify_ref r g p) r') <-> is_Some (at_ref p r').
Proof.
  rewrite at_ref_modify_ref. case_decide; [|done]. by rewrite fmap_is_Some.
Qed.

End PageLemmas.

Lemma edit_eq (r : option node) (g : element -> element) (p : page) :
  edit r g p =
    match at_ref p r with
    | Some _ => (Normal tt, modify_ref r g p)
    | None => (Throw TypeError, p)
    end.
Proof.
  destruct (at_ref p r) eqn:He.
  - apply edit_run. by rewrite He.
  - by apply edit_throw.
Qed.

Lemma get_eq {A} (r : option node) (f : element -> A) (p : page) :
  get r f p =
    match at_ref p r with
    | Some e => (Normal (f e), p)
    | None => (Throw TypeError, p)
    end.
Proof.
  destruct (at_ref p r) eqn:He.
  - by apply get_run.
  - by apply get_throw.
Qed.

Lemma page_ext (p p' : page) :
  (forall n, elems p !! n = elems p' !! n) ->
  ids p = ids p' -> defaultPrevented p = defaultPrevented p' -> p = p'.
Proof.
  destruct p, p'; simpl. intros He -> ->. f_equal. by apply map_eq.
Qed.

Lemma modify_ref_dead (r : option node) (g : element -> element) (p : page) :
  at_ref p r = None -> modify_ref r g p = p.
Proof.
  destruct r as [n|]; [|done]. simpl. intros Hn.
  destruct p as [m i d]. unfold modify. simpl in *. f_equal. by apply alter_id'.
Qed.

(** ** Theme toggle *)

Lemma themeToggleBtn_click_run (b : bindings) (p : page) :
  is_Some (at_ref p (body b)) -> is_Some (at_ref p (themeToggleBtn b)) ->
  themeToggleBtn_click b p = (Normal tt, themeToggled b p).
Proof.
  intros [e He] Hbtn.
  unfold themeToggleBtn_click, bind, classList_toggle, classList_contains,
    set_textContent, themeToggled, darkMode, hasClass.
  rewrite edit_eq, He, get_eq, at_ref_modify_ref, decide_True by done.
  rewrite He. simpl. rewrite contains_toggle.
  apply (is_Some_at_ref_modify_ref (body b)
           (with_classList (DOMTokenList.toggle "dark-mode"))) in Hbtn.
  destruct Hbtn as [e' Hb].
  destruct (DOMTokenList.contains "dark-mode" (classList e)); simpl;
    by rewrite edit_eq, Hb.
Qed.

Lemma themeToggleBtn_click_after (b : bindings) (p : page) :
  after (themeToggleBtn_click b) p =
    match at_ref p (body b) with
    | Some _ => themeToggled b p
    | None => p
    end.
Proof.
  destruct (at_ref p (body b)) as [e|] eqn:He.
  - destruct (at_ref p (themeToggleBtn b)) as [e'|] eqn:Hb.
    + unfold after. rewrite themeToggleBtn_click_run; by eauto.
    + unfold after, themeToggleBtn_click, bind, classList_toggle,
        classList_contains, set_textContent, themeToggled.
      rewrite edit_eq, He, get_eq, at_ref_modify_ref, decide_True, He by done.
      assert (Hn : forall t q, q = modify_ref (body b)
                (with_classList (DOMTokenList.toggle "dark-mode")) p ->
                (edit (themeToggleBtn b) (with_textContent t) q).2 =
                modify_ref (themeToggleBtn b) (with_textContent (labelFor (negb (darkMode b p)))) q).
      { intros t q ->. rewrite edit_eq.
        assert (Hq : at_ref (modify_ref (body b)
                  (with_classList (DOMTokenList.toggle "dark-mode")) p)
                  (themeToggleBtn b) = None).
        { rewrite at_ref_modify_ref, Hb. by case_decide. }
        rewrite Hq. simpl. symmetry. by apply modify_ref_dead. }
      simpl. destruct (DOMTokenList.contains _ _); by apply Hn.
  - unfold after, themeToggleBtn_click, bind, classList_toggle.
    by rewrite edit_eq, He.
Qed.

Lemma darkMode_themeToggled (b : bindings) (p : page) :
  is_Some (at_ref p (body b)) ->
  darkMode b (themeToggled b p) = negb (darkMode b p).
Proof.
  intros [e He]. unfold darkMode, themeToggled.
  rewrite hasClass_keep by done.
  rewrite hasClass_set. unfold hasClass. rewrite He. apply contains_toggle.
Qed.

Lemma label_themeToggled (b : bindings) (p : page) :
  is_Some (at_ref p (themeToggleBtn b)) ->
  label b (themeToggled b p) = labelFor (negb (darkMode b p)).
Proof.
  intros Hb. unfold label, themeToggled. apply textOf_set.
  by apply is_Some_at_ref_modify_ref.
Qed.

Lemma themeToggled_twice (b : bindings) (p : page) :
  is_Some (at_ref p (body b)) ->
  label b p = labelFor (darkMode b p) ->
  themeToggled b (themeToggled b p) = p.
Proof.
  intros Hbody Hlabel.
  assert (Hd : darkMode b (themeToggled b p) = negb (darkMode b p))
    by by apply darkMode_themeToggled.
  apply page_ext.
  - intros n. change (at_ref (themeToggled b (themeToggled b p)) (Some n) = at_ref p (Some n)).
    unfold themeToggled at 1. rewrite Hd, negb_involutive, <- Hlabel.
    unfold themeToggled. rewrite !at_ref_modify_ref.
    unfold label, textOf.
    destruct (at_ref p (Some n)) as [[i c t v d]|] eqn:Hn;
      repeat case_decide; simplify_eq; try done;
      rewrite ?Hn; unfold with_textContent, with_classList; simpl;
      rewrite ?toggle_toggle; try done;
      match goal with H : themeToggleBtn b = Some n |- _ => by rewrite H, Hn end.
  - unfold themeToggled. by rewrite !ids_modify_ref.
  - unfold themeToggled. by rewrite !defaultPrevented_modify_ref.
Qed.

Lemma ownLabel_init : init ownLabel = (Normal demoBindings, ownLabel).
Proof. vm_compute. reflexivity. Qed.

(** C6, as stated, fails: on a light page whose button reads "Toggle Theme"
    two activations leave the button reading "Switch to Dark Mode". *)
Lemma themeToggle_label_not_restored :
  init ownLabel = (Normal demoBindings, ownLabel)
  /\ label demoBindings ownLabel = js "Toggle Theme"
  /\ label demoBindings
       (after (themeToggleBtn_click demoBindings)
          (after (themeToggleBtn_click demoBindings) ownLabel))
     = js "Switch to Dark Mode"
  /\ label demoBindings
       (after (themeToggleBtn_click demoBindings)
          (after (themeToggleBtn_click demoBindings) ownLabel))
     <> label demoBindings ownLabel.
Proof.
  split; [apply ownLabel_init|].
  split; [vm_compute; reflexivity|].
  split; [vm_compute; reflexivity|].
  vm_compute. discriminate.
Qed.

(** C6 (amended): two consecutive activations of the theme toggle always
    return the page root's dark-mode marker to its original value; when the
    button's label named the opposite mode to begin with (as it does after
    any activation), they return the whole page, label included, to its
    original state; and in any case, on a page that has both elements, the
    label ends as the one naming the mode opposite to the original marker. *)
Theorem themeToggle_involution (b : bindings) (p : page) :
  let p2 := after (themeToggleBtn_click b) (after (themeToggleBtn_click b) p) in
  darkMode b p2 = darkMode b p
  /\ (label b p = labelFor (darkMode b p) -> p2 = p)
  /\ (is_Some (at_ref p (body b)) -> is_Some (at_ref p (themeToggleBtn b)) ->
      label b p2 = labelFor (darkMode b p)).
Proof.
  simpl. rewrite (themeToggleBtn_click_after b p).
  destruct (at_ref p (body b)) as [e|] eqn:He.
  - assert (Hbody : is_Some (at_ref p (body b))) by by rewrite He.
    assert (Hbody' : is_Some (at_ref (themeToggled b p) (body b))).
    { unfold themeToggled. by rewrite !is_Some_at_ref_modify_ref. }
    rewrite themeToggleBtn_click_after.
    destruct Hbody' as [e' He']. rewrite He'.
    split; [|split].
    + rewrite !darkMode_themeToggled by (by rewrite ?He, ?He').
      apply negb_involutive.
    + by apply themeToggled_twice.
    + intros _ Hbtn. rewrite label_themeToggled.
      * rewrite darkMode_themeToggled by done. by rewrite negb_involutive.
      * unfold themeToggled. by rewrite !is_Some_at_ref_modify_ref.
  - rewrite themeToggleBtn_click_after, He. split; [done|]. split; [done|].
    by intros [? ?].
Qed.

Lemma themeToggle_involution_witness :
  label demoBindings emptyForm = labelFor (darkMode demoBindings emptyForm)
  /\ after (themeToggleBtn_click demoBindings)
       (after (themeToggleBtn_click demoBindings) emptyForm) = emptyForm.
Proof.
  assert (H : label demoBindings emptyForm = labelFor (darkMode demoBindings emptyForm))
    by (vm_compute; reflexivity).
  split; [exact H|].
  exact (proj1 (proj2 (themeToggle_involution demoBindings emptyForm)) H).
Defined.

(** ** FAQ accordion *)

Lemma hasClass_toggle_frame (r0 : option node) (t0 : string) (p : page)
    (r : option node) (t : string) :
  ~ (r = r0 /\ t = t0) ->
  hasClass (modify_ref r0 (with_classList (DOMTokenList.toggle t0)) p) r t
  = hasClass p r t.
Proof.
  intros Hne. destruct (decide (r0 = r)) as [->|Hr].
  - apply hasClass_token. intros l. apply contains_toggle_other.
    intros ->. by apply Hne.
  - by apply hasClass_other.
Qed.

Lemma hasClass_toggle_hit (r : option node) (t : string) (p : page) :
  is_Some (at_ref p r) ->
  hasClass (modify_ref r (with_classList (DOMTokenList.toggle t)) p) r t
  = negb (hasClass p r t).
Proof.
  intros [e He]. rewrite hasClass_set. unfold hasClass. rewrite He.
  apply contains_toggle.
Qed.

Lemma nextElementSibling_eq (q : node) (p : page) :
  nextElementSibling (Some q) p =
    (Normal (if at_ref p (sibling q) is Some _ then sibling q else None), p).
Proof.
  unfold nextElementSibling. f_equal. f_equal.
  destruct (sibling q) as [m|]; simpl; [|done]. by destruct (elems p !! m).
Qed.

Lemma faqQuestion_click_eq (q : node) (p : page) :
  faqQuestion_click (Some q) p =
    match at_ref p (sibling q), at_ref p (Some q) with
    | Some _, Some _ => (Normal tt, faqToggled q p)
    | Some _, None =>
        (Throw TypeError,
         modify_ref (sibling q) (with_classList (DOMTokenList.toggle "show")) p)
    | None, _ => (Throw TypeError, p)
    end.
Proof.
  unfold faqQuestion_click, bind, classList_toggle.
  rewrite nextElementSibling_eq.
  destruct (at_ref p (sibling q)) as [a|] eqn:Ha.
  - rewrite edit_eq, Ha, edit_eq, at_ref_modify_ref.
    destruct (at_ref p (Some q)) as [e|] eqn:Hq; by case_decide.
  - by rewrite edit_eq.
Qed.

Lemma sibling_inj (q q' : node) : sibling q = sibling q' -> q = q'.
Proof.
  destruct q as [|i l], q' as [|j l']; simpl; intros H; by simplify_eq.
Qed.

Lemma sibling_self (q : node) : sibling q <> Some q.
Proof.
  destruct q as [|i l]; simpl; [done|]. intros H. simplify_eq. lia.
Qed.

(** C7: clicking the question of pair A leaves the answer-visibility marker
    and the active marker of any other pair B as they were, and changes no
    class marker other than "show" on A's answer and "active" on A's
    question; when A's question and its following sibling exist, the click
    returns and flips exactly these two markers. *)
Theorem faq_pairs_independent (p : page) (qA qB : node) :
  qA <> qB ->
  let p' := after (faqQuestion_click (Some qA)) p in
  answerShown p' qB = answerShown p qB
  /\ questionActive p' qB = questionActive p qB
  /\ (forall r t, ~ (r = sibling qA /\ t = "show") ->
                  ~ (r = Some qA /\ t = "active") ->
                  hasClass p' r t = hasClass p r t)
  /\ (is_Some (at_ref p (Some qA)) -> is_Some (at_ref p (sibling qA)) ->
      faqQuestion_click (Some qA) p = (Normal tt, p')
      /\ answerShown p' qA = negb (answerShown p qA)
      /\ questionActive p' qA = negb (questionActive p qA)).
Proof.
  intros Hne p'.
  assert (Hframe : forall r t, ~ (r = sibling qA /\ t = "show") ->
                     ~ (r = Some qA /\ t = "active") ->
                     hasClass p' r t = hasClass p r t).
  { intros r t H1 H2. unfold p', after. rewrite faqQuestion_click_eq.
    destruct (at_ref p (sibling qA)); [|done].
    destruct (at_ref p (Some qA)); simpl; unfold faqToggled;
      by rewrite ?hasClass_toggle_frame. }
  split; [|split; [|split; [exact Hframe|]]].
  - apply Hframe.
    + intros [H _]. by apply sibling_inj in H.
    + by intros [_ H].
  - apply Hframe.
    + by intros [_ H].
    + intros [H _]. by simplify_eq.
  - intros [e He] [a Ha]. unfold p', after.
    rewrite faqQuestion_click_eq, Ha, He. simpl.
    split; [done|]. unfold answerShown, questionActive, faqToggled. split.
    + rewrite hasClass_toggle_frame by (intros [_ H]; done).
      apply hasClass_toggle_hit. by rewrite Ha.
    + rewrite hasClass_toggle_hit.
      * f_equal. apply hasClass_toggle_frame. by intros [_ H].
      * rewrite is_Some_at_ref_modify_ref. by rewrite He.
Qed.

Lemma faq_pairs_independent_witness :
  let p' := after (faqQuestion_click (Some [0; 1; 1])) faqPage in
  (answerShown faqPage [0; 1; 1] = true /\ answerShown p' [0; 1; 1] = false)
  /\ answerShown p' [2; 1; 1] = answerShown faqPage [2; 1; 1]
  /\ questionActive p' [2; 1; 1] = questionActive faqPage [2; 1; 1].
Proof.
  split; [split; vm_compute; reflexivity|].
  assert (Hne : [0; 1; 1] <> [2; 1; 1]) by discriminate.
  destruct (faq_pairs_independent faqPage [0; 1; 1] [2; 1; 1] Hne) as (H1 & H2 & _).
  split; [exact H1 | exact H2].
Defined.

(** ** Form validation: the page structure under changes *)

Lemma keeps_id_text t : keeps_id (with_textContent t).
Proof. by intros []. Qed.

Lemma keeps_id_classes f : keeps_id (with_classList f).
Proof. by intros []. Qed.

Lemma keeps_id_value f : keeps_id (with_value f).
Proof. by intros []. Qed.

Create HintDb page.
Global Hint Resolve keeps_id_text keeps_id_classes keeps_id_value : page.

Lemma ids_ok_modify_ref r g p :
  keeps_id g -> ids_ok p -> ids_ok (modify_ref r g p).
Proof.
  intros Hg Hok s n Hs. rewrite ids_modify_ref in Hs.
  specialize (Hok s n Hs). simpl in Hok.
  change (id <$> at_ref (modify_ref r g p) (Some n) = Some s).
  rewrite at_ref_modify_ref. simpl.
  case_decide; [|done]. destruct (elems p !! n); simpl in *; [|done].
  by rewrite Hg.
Qed.

Lemma ready_modify_ref b r g p :
  keeps_id g -> ready b p -> ready b (modify_ref r g p).
Proof.
  intros Hg (Hok & Hin & Ht & Hf & Hs & Hall).
  unfold ready. rewrite ids_modify_ref. eauto 10 using ids_ok_modify_ref.
Qed.

Lemma ids_ok_live p s n :
  ids_ok p -> ids p !! s = Some n ->
  exists e, at_ref p (Some n) = Some e /\ id e = s.
Proof.
  intros Hok Hs. specialize (Hok s n Hs). simpl in *.
  destruct (elems p !! n) as [e|]; simplify_eq/=. eauto.
Qed.

Lemma ids_ok_ne p s1 s2 :
  ids_ok p -> is_Some (ids p !! s1) -> s1 <> s2 -> ids p !! s1 <> ids p !! s2.
Proof.
  intros Hok [n Hn] Hne Heq. rewrite Hn in Heq. symmetry in Heq.
  destruct (ids_ok_live p s1 n Hok Hn) as (e1 & H1 & <-).
  destruct (ids_ok_live p s2 n Hok Heq) as (e2 & H2 & <-).
  rewrite H1 in H2. by simplify_eq.
Qed.

Lemma ready_present b p s :
  ready b p -> bool_decide (s ∈ requiredIds) = true -> is_Some (ids p !! s).
Proof.
  intros (_ & _ & _ & _ & _ & Hall) Hs. apply bool_decide_eq_true in Hs.
  rewrite Forall_forall in Hall. by apply Hall.
Qed.

Lemma ready_ids_ok b p : ready b p -> ids_ok p.
Proof. by intros (? & _). Qed.

Lemma ready_input b p f : ready b p -> input b f = ids p !! fieldId f.
Proof. intros (_ & H & _). apply H. Qed.

Lemma ready_successMessage b p :
  ready b p -> successMessage b = ids p !! "form-success-message".
Proof. by intros (_ & _ & _ & _ & H & _). Qed.

Lemma ready_themeToggleBtn b p :
  ready b p -> themeToggleBtn b = ids p !! "theme-toggle".
Proof. by intros (_ & _ & H & _). Qed.

Lemma ready_form b p : ready b p -> form b = ids p !! "contact-form".
Proof. by intros (_ & _ & _ & H & _). Qed.

Lemma ready_live b p s :
  ready b p -> bool_decide (s ∈ requiredIds) = true ->
  exists e, at_ref p (ids p !! s) = Some e /\ id e = s.
Proof.
  intros Hr Hs. destruct (ready_present b p s Hr Hs) as [n Hn].
  rewrite Hn. eapply ids_ok_live; eauto using ready_ids_ok.
Qed.

Lemma ready_input_live b p f :
  ready b p -> exists e, at_ref p (input b f) = Some e /\ id e = fieldId f.
Proof.
  intros Hr. rewrite (ready_input b p f Hr).
  apply (ready_live b p _ Hr). by destruct f.
Qed.

Lemma ready_span_live b p f : ready b p -> is_Some (at_ref p (errorSpan p f)).
Proof.
  intros Hr. destruct (ready_live b p (fieldId f +:+ "-error") Hr) as (e & He & _).
  - by destruct f.
  - unfold errorSpan. by rewrite He.
Qed.

Lemma ready_success_live b p : ready b p -> is_Some (at_ref p (successMessage b)).
Proof.
  intros Hr. rewrite (ready_successMessage b p Hr).
  destruct (ready_live b p "form-success-message" Hr) as (e & He & _); [done|].
  by rewrite He.
Qed.

(** References that come from different identifiers are different. *)
Lemma ready_ne b p s1 s2 :
  ready b p -> bool_decide (s1 ∈ requiredIds) = true ->
  bool_decide (s1 = s2) = false -> ids p !! s1 <> ids p !! s2.
Proof.
  intros Hr H1 H2. apply ids_ok_ne; eauto using ready_ids_ok, ready_present.
  by apply bool_decide_eq_false in H2.
Qed.

Lemma ready_input_ne b p f g :
  ready b p -> f <> g -> input b f <> input b g.
Proof.
  intros Hr Hne. rewrite !(ready_input b p _ Hr).
  apply (ready_ne b p _ _ Hr); destruct f, g; done.
Qed.

Lemma ready_span_ne b p f g :
  ready b p -> f <> g -> errorSpan p f <> errorSpan p g.
Proof.
  intros Hr Hne. apply (ready_ne b p _ _ Hr); destruct f, g; done.
Qed.

Lemma ready_span_success b p f : ready b p -> errorSpan p f <> successMessage b.
Proof.
  intros Hr. rewrite (ready_successMessage b p Hr).
  apply (ready_ne b p _ _ Hr); destruct f; done.
Qed.

Lemma ready_span_toggle b p f : ready b p -> errorSpan p f <> themeToggleBtn b.
Proof.
  intros Hr. rewrite (ready_themeToggleBtn b p Hr).
  apply (ready_ne b p _ _ Hr); destruct f; done.
Qed.

(** ** Form validation: the helpers *)

Lemma clearError_run b p f :
  ready b p -> clearError (input b f) p = (Normal tt, cleared b f p).
Proof.
  intros Hr. destruct (ready_input_live b p f Hr) as (e & He & Hid).
  unfold clearError, bind, get_id, getElementById, set_textContent, classList_remove.
  rewrite (get_run _ _ _ _ He), Hid.
  rewrite edit_run by by apply ready_span_live with b.
  rewrite edit_run; [done|].
  rewrite is_Some_at_ref_modify_ref. by rewrite He.
Qed.

Lemma displayError_run b p f msg :
  ready b p -> displayError (input b f) msg p = (Normal tt, displayed b f msg p).
Proof.
  intros Hr. destruct (ready_input_live b p f Hr) as (e & He & Hid).
  unfold displayError, bind, get_id, getElementById, set_textContent, classList_add.
  rewrite (get_run _ _ _ _ He), Hid.
  rewrite edit_run by by apply ready_span_live with b.
  rewrite edit_run; [done|].
  rewrite is_Some_at_ref_modify_ref. by rewrite He.
Qed.

Lemma ready_cleared b p f : ready b p -> ready b (cleared b f p).
Proof. intros Hr. unfold cleared, marked. auto using ready_modify_ref with page. Qed.

Lemma ready_displayed b p f msg : ready b p -> ready b (displayed b f msg p).
Proof. intros Hr. unfold displayed, marked. auto using ready_modify_ref with page. Qed.

Lemma errorSpan_modify_ref r g p f : errorSpan (modify_ref r g p) f = errorSpan p f.
Proof. unfold errorSpan. by rewrite ids_modify_ref. Qed.

Lemma errorText_marked b p f g t cl :
  ready b p ->
  errorText (marked b g t cl p) f = if decide (f = g) then t else errorText p f.
Proof.
  intros Hr. unfold errorText, marked. rewrite !errorSpan_modify_ref.
  rewrite textOf_keep by done.
  case_decide as Hfg.
  - subst. apply textOf_set. by apply ready_span_live with b.
  - apply textOf_other. apply (ready_span_ne b); [done|]. by intros ->.
Qed.

Lemma invalid_marked b p f g t cl :
  ready b p ->
  invalid b (marked b g t cl p) f =
    if decide (f = g)
    then match at_ref p (input b f) with
         | Some e => DOMTokenList.contains "invalid" (cl (classList e))
         | None => false
         end
    else invalid b p f.
Proof.
  intros Hr. unfold invalid, marked.
  case_decide as Hfg.
  - subst. rewrite hasClass_set, at_ref_modify_ref.
    case_decide; [|done]. by destruct (at_ref p (input b g)).
  - rewrite hasClass_other by (apply (ready_input_ne b p); [done|]; by intros ->).
    by rewrite hasClass_keep.
Qed.

Lemma fieldValue_marked b p f g t cl :
  fieldValue b (marked b g t cl p) f = fieldValue b p f.
Proof. unfold fieldValue, marked. by rewrite !valueOf_keep. Qed.

Lemma successShown_marked b p g t cl :
  ready b p -> successShown b (marked b g t cl p) = successShown b p.
Proof.
  intros Hr. unfold successShown, marked. rewrite textOf_keep by done.
  apply textOf_other. by apply ready_span_success.
Qed.

Lemma rule_marked b p f g t cl : rule b (marked b g t cl p) f = rule b p f.
Proof. destruct f; simpl; by rewrite !fieldValue_marked. Qed.

Lemma invalid_cleared b p f g :
  ready b p ->
  invalid b (cleared b g p) f = if decide (f = g) then false else invalid b p f.
Proof.
  intros Hr. unfold cleared. rewrite invalid_marked by done.
  case_decide; [|done]. destruct (at_ref p (input b f)); [|done].
  apply contains_remove.
Qed.

Lemma invalid_displayed b p f g msg :
  ready b p ->
  invalid b (displayed b g msg p) f = if decide (f = g) then true else invalid b p f.
Proof.
  intros Hr. unfold displayed. rewrite invalid_marked by done.
  case_decide; [|done]. subst.
  destruct (ready_input_live b p g Hr) as (e & -> & _). apply contains_add.
Qed.

(** ** Form validation: the pass *)

Lemma bind_run {A B} (c : M A) (k : A -> M B) p a p' :
  c p = (Normal a, p') -> bind c k p = k a p'.
Proof. intros H. unfold bind. by rewrite H. Qed.

Lemma get_value_run b p f :
  ready b p -> get_value (input b f) p = (Normal (fieldValue b p f), p).
Proof.
  intros Hr. destruct (ready_input_live b p f Hr) as (e & He & _).
  unfold get_value, fieldValue, valueOf. rewrite He. by apply get_run.
Qed.

Lemma successSet_run b p t :
  ready b p -> set_textContent (successMessage b) t p = (Normal tt, successSet b t p).
Proof. intros Hr. apply edit_run. by apply ready_success_live. Qed.

Lemma ready_successSet b p t : ready b p -> ready b (successSet b t p).
Proof. intros Hr. unfold successSet. auto using ready_modify_ref with page. Qed.

Lemma fieldValue_successSet b p t f : fieldValue b (successSet b t p) f = fieldValue b p f.
Proof. unfold fieldValue, successSet. by rewrite valueOf_keep. Qed.

Lemma invalid_successSet b p t f : invalid b (successSet b t p) f = invalid b p f.
Proof. unfold invalid, successSet. by rewrite hasClass_keep. Qed.

Lemma errorText_successSet b p t f :
  ready b p -> errorText (successSet b t p) f = errorText p f.
Proof.
  intros Hr. unfold errorText, successSet. rewrite errorSpan_modify_ref.
  apply textOf_other. intros H. by apply (ready_span_success b p f).
Qed.

Lemma successShown_successSet b p t :
  ready b p -> successShown b (successSet b t p) = t.
Proof. intros Hr. apply textOf_set. by apply ready_success_live. Qed.

Lemma rule_successSet b p t f : rule b (successSet b t p) f = rule b p f.
Proof. destruct f; simpl; by rewrite !fieldValue_successSet. Qed.

Lemma ready_checked b p f ok : ready b p -> ready b (checked b f ok p).
Proof. intros Hr. destruct ok; simpl; auto using ready_displayed. Qed.

Lemma rule_checked b p f g ok : rule b (checked b g ok p) f = rule b p f.
Proof. destruct ok; simpl; [done|]. apply rule_marked. Qed.

Lemma rule_allCleared b p f : rule b (allCleared b p) f = rule b p f.
Proof.
  unfold allCleared, cleared. by rewrite rule_successSet, !rule_marked.
Qed.

Lemma ready_allCleared b p : ready b p -> ready b (allCleared b p).
Proof.
  intros Hr. unfold allCleared.
  apply ready_successSet. by repeat apply ready_cleared.
Qed.

(** One check of the pass: the error is displayed and [isValid] becomes
    false when the condition [c] holds. *)
Lemma check_run b p f (c v : bool) :
  ready b p ->
  (if c then displayError (input b f) (message f);; ret false else ret v) p
  = (Normal (negb c && v), checked b f (negb c) p).
Proof.
  intros Hr. destruct c; simpl; [|done].
  unfold bind. by rewrite displayError_run.
Qed.

Lemma validateForm_run b p :
  ready b p -> validateForm b p = (Normal (allRules b p), validated b p).
Proof.
  intros Hr. unfold validateForm.
  pose proof (ready_cleared b p Name Hr) as H1.
  pose proof (ready_cleared b _ Email H1) as H2.
  pose proof (ready_cleared b _ Password H2) as H3.
  pose proof (ready_cleared b _ ConfirmPassword H3) as H4.
  pose proof (ready_successSet b _ [] H4) as H5.
  rewrite (bind_run _ _ _ _ _ (clearError_run b _ Name Hr)).
  rewrite (bind_run _ _ _ _ _ (clearError_run b _ Email H1)).
  rewrite (bind_run _ _ _ _ _ (clearError_run b _ Password H2)).
  rewrite (bind_run _ _ _ _ _ (clearError_run b _ ConfirmPassword H3)).
  rewrite (bind_run _ _ _ _ _ (successSet_run b _ [] H4)).
  fold (allCleared b p) in *.
  rewrite (bind_run _ _ _ _ _ (get_value_run b _ Name H5)).
  rewrite (bind_run _ _ _ _ _ (check_run b _ Name _ true H5)).
  fold (rule b (allCleared b p) Name). rewrite rule_allCleared.
  pose proof (ready_checked b _ Name (rule b p Name) H5) as H6.
  rewrite (bind_run _ _ _ _ _ (get_value_run b _ Email H6)).
  rewrite (bind_run _ _ _ _ _ (check_run b _ Email _ _ H6)).
  rewrite negb_involutive.
  fold (rule b (checked b Name (rule b p Name) (allCleared b p)) Email).
  rewrite rule_checked, rule_allCleared.
  pose proof (ready_checked b _ Email (rule b p Email) H6) as H7.
  rewrite (bind_run _ _ _ _ _ (get_value_run b _ Password H7)).
  rewrite (bind_run _ _ _ _ _ (check_run b _ Password _ _ H7)).
  match goal with
  | |- context [negb (length (fieldValue b ?q Password) <? 8)] =>
      fold (rule b q Password)
  end.
  rewrite !rule_checked, rule_allCleared.
  pose proof (ready_checked b _ Password (rule b p Password) H7) as H8.
  rewrite (bind_run _ _ _ _ _ (get_value_run b _ ConfirmPassword H8)).
  rewrite (bind_run _ _ _ _ _ (get_value_run b _ Password H8)).
  rewrite (bind_run _ _ _ _ _ (check_run b _ ConfirmPassword _ _ H8)).
  rewrite negb_involutive.
  match goal with
  | |- context [bool_decide (fieldValue b ?q ConfirmPassword = fieldValue b ?q Password)] =>
      fold (rule b q ConfirmPassword)
  end.
  rewrite !rule_checked, rule_allCleared.
  unfold ret, validated, allRules. f_equal. f_equal.
  destruct (rule b p Name), (rule b p Email), (rule b p Password),
    (rule b p ConfirmPassword); reflexivity.
Qed.

Lemma errorText_cleared b p f g :
  ready b p ->
  errorText (cleared b g p) f = if decide (f = g) then [] else errorText p f.
Proof. intros Hr. by apply errorText_marked. Qed.

Lemma errorText_checked b p f g ok :
  ready b p ->
  errorText (checked b g ok p) f =
    if decide (f = g) then (if ok then errorText p f else message g)
    else errorText p f.
Proof.
  intros Hr. destruct ok; simpl.
  - by case_decide.
  - by apply errorText_marked.
Qed.

Lemma invalid_checked b p f g ok :
  ready b p ->
  invalid b (checked b g ok p) f =
    if decide (f = g) then (if ok then invalid b p f else true)
    else invalid b p f.
Proof.
  intros Hr. destruct ok; simpl.
  - by case_decide.
  - by apply invalid_displayed.
Qed.

Lemma successShown_checked b p g ok :
  ready b p -> successShown b (checked b g ok p) = successShown b p.
Proof. intros Hr. destruct ok; simpl; [done|]. by apply successShown_marked. Qed.

Lemma fieldValue_checked b p f g ok :
  fieldValue b (checked b g ok p) f = fieldValue b p f.
Proof. destruct ok; simpl; [done|]. apply fieldValue_marked. Qed.

Lemma fieldValue_allCleared b p f : fieldValue b (allCleared b p) f = fieldValue b p f.
Proof.
  unfold allCleared, cleared. by rewrite fieldValue_successSet, !fieldValue_marked.
Qed.

Lemma errorText_allCleared b p f : ready b p -> errorText (allCleared b p) f = [].
Proof.
  intros Hr. unfold allCleared.
  pose proof (ready_cleared b p Name Hr) as H1.
  pose proof (ready_cleared b _ Email H1) as H2.
  pose proof (ready_cleared b _ Password H2) as H3.
  pose proof (ready_cleared b _ ConfirmPassword H3) as H4.
  rewrite errorText_successSet by done.
  rewrite !errorText_cleared by done.
  destruct f; repeat case_decide; done.
Qed.

Lemma invalid_allCleared b p f : ready b p -> invalid b (allCleared b p) f = false.
Proof.
  intros Hr. unfold allCleared.
  pose proof (ready_cleared b p Name Hr) as H1.
  pose proof (ready_cleared b _ Email H1) as H2.
  pose proof (ready_cleared b _ Password H2) as H3.
  rewrite invalid_successSet.
  rewrite !invalid_cleared by done.
  destruct f; repeat case_decide; done.
Qed.

Lemma successShown_allCleared b p : ready b p -> successShown b (allCleared b p) = [].
Proof.
  intros Hr. unfold allCleared. apply successShown_successSet.
  by repeat apply ready_cleared.
Qed.

Lemma ready_validated b p : ready b p -> ready b (validated b p).
Proof.
  intros Hr. unfold validated.
  repeat apply ready_checked. by apply ready_allCleared.
Qed.

Lemma errorText_validated b p f :
  ready b p ->
  errorText (validated b p) f = if rule b p f then [] else message f.
Proof.
  intros Hr. unfold validated.
  pose proof (ready_allCleared b p Hr) as H0.
  pose proof (ready_checked b _ Name (rule b p Name) H0) as H1.
  pose proof (ready_checked b _ Email (rule b p Email) H1) as H2.
  pose proof (ready_checked b _ Password (rule b p Password) H2) as H3.
  rewrite !errorText_checked, errorText_allCleared by done.
  destruct f; repeat case_decide; try done;
    match goal with |- context [rule b p ?f] => by destruct (rule b p f) end.
Qed.

Lemma invalid_validated b p f :
  ready b p -> invalid b (validated b p) f = negb (rule b p f).
Proof.
  intros Hr. unfold validated.
  pose proof (ready_allCleared b p Hr) as H0.
  pose proof (ready_checked b _ Name (rule b p Name) H0) as H1.
  pose proof (ready_checked b _ Email (rule b p Email) H1) as H2.
  pose proof (ready_checked b _ Password (rule b p Password) H2) as H3.
  rewrite !invalid_checked, invalid_allCleared by done.
  destruct f; repeat case_decide; try done;
    match goal with |- context [rule b p ?f] => by destruct (rule b p f) end.
Qed.

Lemma successShown_validated b p : ready b p -> successShown b (validated b p) = [].
Proof.
  intros Hr. unfold validated.
  pose proof (ready_allCleared b p Hr) as H0.
  pose proof (ready_checked b _ Name (rule b p Name) H0) as H1.
  pose proof (ready_checked b _ Email (rule b p Email) H1) as H2.
  pose proof (ready_checked b _ Password (rule b p Password) H2) as H3.
  rewrite !successShown_checked by done. by apply successShown_allCleared.
Qed.

Lemma fieldValue_validated b p f : fieldValue b (validated b p) f = fieldValue b p f.
Proof.
  unfold validated. by rewrite !fieldValue_checked, fieldValue_allCleared.
Qed.

Lemma rule_validated b p f : rule b (validated b p) f = rule b p f.
Proof. destruct f; simpl; by rewrite !fieldValue_validated. Qed.

(** The rules as the table of the specification has them. *)
Lemma rule_table b p :
  (rule b p Name = true <-> 3 <= length (trim (fieldValue b p Name)))
  /\ (rule b p Email = true <-> test emailRegex (trim (fieldValue b p Email)) = true)
  /\ (rule b p Password = true <-> 8 <= length (fieldValue b p Password))
  /\ (rule b p ConfirmPassword = true <->
      fieldValue b p ConfirmPassword = fieldValue b p Password).
Proof.
  simpl. rewrite !negb_true_iff, !Nat.ltb_ge, bool_decide_eq_true. done.
Qed.

Lemma message_nonempty f : message f <> [].
Proof. by destruct f. Qed.

Lemma shortName_ready : ready demoBindings shortName.
Proof. solve_ready. Qed.
Lemma alice_ready : ready demoBindings alice.
Proof. solve_ready. Qed.
Lemma mismatch_ready : ready demoBindings mismatch.
Proof. solve_ready. Qed.
Lemma blankName_ready : ready demoBindings blankName.
Proof. solve_ready. Qed.
Lemma sevenChars_ready : ready demoBindings sevenChars.
Proof. solve_ready. Qed.
Lemma aliceStale_ready : ready demoBindings aliceStale.
Proof. solve_ready. Qed.

(** ** Form validation: the claims about the pass *)

(** C1: on a page with the structure the script relies on, [validateForm]
    returns the conjunction of the four rules and leaves the page
    [validated b p]: all four error displays and the success message are
    cleared first, and then every field whose rule fails, whatever the other
    rules give, gets its error text and the invalid marker. *)
Theorem validateForm_pass (b : bindings) (p : page) :
  ready b p ->
  validateForm b p =
    (Normal (rule b p Name && rule b p Email && rule b p Password
             && rule b p ConfirmPassword),
     validated b p)
  /\ validated b p =
       checked b ConfirmPassword (rule b p ConfirmPassword)
         (checked b Password (rule b p Password)
            (checked b Email (rule b p Email)
               (checked b Name (rule b p Name) (allCleared b p))))
  /\ (forall f, errorText (allCleared b p) f = []
                /\ invalid b (allCleared b p) f = false)
  /\ successShown b (allCleared b p) = []
  /\ (forall f, errorText (validated b p) f = (if rule b p f then [] else message f)
                /\ invalid b (validated b p) f = negb (rule b p f))
  /\ successShown b (validated b p) = [].
Proof.
  intros Hr.
  split; [by apply validateForm_run|].
  split; [reflexivity|].
  split; [intros f; split; [by apply errorText_allCleared|by apply invalid_allCleared]|].
  split; [by apply successShown_allCleared|].
  split; [intros f; split; [by apply errorText_validated|by apply invalid_validated]|].
  by apply successShown_validated.
Qed.

Lemma validateForm_pass_witness :
  (validateForm demoBindings shortName).1 = Normal false
  /\ errorText (after (validateForm demoBindings) shortName) Name = message Name
  /\ errorText (after (validateForm demoBindings) shortName) Email = [].
Proof.
  destruct (validateForm_pass demoBindings shortName shortName_ready)
    as (Hrun & _ & _ & _ & Hobs & _).
  unfold after. rewrite Hrun. cbn [fst snd].
  split; [vm_compute; reflexivity|].
  split.
  - rewrite (proj1 (Hobs Name)). vm_compute. reflexivity.
  - rewrite (proj1 (Hobs Email)). vm_compute. reflexivity.
Defined.

Lemma trimStart_whitespace (s : jsstring) :
  Forall (fun c => isWhiteSpace c = true) s -> trimStart s = [].
Proof. induction 1 as [|c s Hc _ IH]; simpl; [done|]. by rewrite Hc. Qed.

Lemma trim_whitespace (s : jsstring) :
  Forall (fun c => isWhiteSpace c = true) s -> trim s = [].
Proof. intros H. unfold trim. by rewrite trimStart_whitespace. Qed.

Lemma after_validateForm b p : ready b p -> after (validateForm b) p = validated b p.
Proof. intros Hr. unfold after. by rewrite validateForm_run. Qed.

(** C3: the thresholds of the name and password rules are exact. After a
    validation pass the name error is displayed when the trimmed name has
    length 2 and is not when it has length 3; the password error is
    displayed when the password has length 7 and is not when it has length
    8; and a name made of white space only gets the name error, the trim
    coming before the length check. *)
Theorem rule_boundaries (b : bindings) (p : page) :
  ready b p ->
  let p' := after (validateForm b) p in
  let shown f := errorText p' f = message f /\ invalid b p' f = true in
  let hidden f := errorText p' f = [] /\ invalid b p' f = false in
  (length (trim (fieldValue b p Name)) = 2 -> shown Name)
  /\ (length (trim (fieldValue b p Name)) = 3 -> hidden Name)
  /\ (length (fieldValue b p Password) = 7 -> shown Password)
  /\ (length (fieldValue b p Password) = 8 -> hidden Password)
  /\ (Forall (fun c => isWhiteSpace c = true) (fieldValue b p Name) -> shown Name).
Proof.
  intros Hr p' shown hidden. unfold shown, hidden, p'.
  rewrite after_validateForm by done.
  rewrite !errorText_validated, !invalid_validated by done. simpl.
  split; [|split; [|split; [|split]]]; intros H;
    rewrite ?(trim_whitespace _ H), ?H; split; reflexivity.
Qed.

Lemma rule_boundaries_witness :
  (length (trim (fieldValue demoBindings shortName Name)) = 2
   /\ errorText (after (validateForm demoBindings) shortName) Name = message Name)
  /\ (fieldValue demoBindings blankName Name = js "   "
      /\ errorText (after (validateForm demoBindings) blankName) Name = message Name)
  /\ (length (fieldValue demoBindings sevenChars Password) = 7
      /\ invalid demoBindings (after (validateForm demoBindings) sevenChars) Password = true).
Proof.
  pose proof (rule_boundaries demoBindings shortName shortName_ready) as (H2 & _).
  pose proof (rule_boundaries demoBindings blankName blankName_ready) as (_ & _ & _ & _ & Hw).
  pose proof (rule_boundaries demoBindings sevenChars sevenChars_ready) as (_ & _ & H7 & _).
  assert (E2 : length (trim (fieldValue demoBindings shortName Name)) = 2)
    by (vm_compute; reflexivity).
  assert (Ew : fieldValue demoBindings blankName Name = js "   ")
    by (vm_compute; reflexivity).
  assert (E7 : length (fieldValue demoBindings sevenChars Password) = 7)
    by (vm_compute; reflexivity).
  split; [split; [exact E2|exact (proj1 (H2 E2))]|].
  split; [split; [exact Ew|]|split; [exact E7|exact (proj2 (H7 E7))]].
  apply Hw. rewrite Ew. repeat constructor.
Defined.

(** C8: a second validation pass right after a first one, the four input
    values being what they were, returns the same boolean and leaves the
    same error texts, invalid markers, success message and input values. *)
Theorem validateForm_idempotent (b : bindings) (p : page) :
  ready b p ->
  let p1 := after (validateForm b) p in
  let p2 := after (validateForm b) p1 in
  (validateForm b p1).1 = (validateForm b p).1
  /\ (forall f, errorText p2 f = errorText p1 f
                /\ invalid b p2 f = invalid b p1 f
                /\ fieldValue b p2 f = fieldValue b p1 f)
  /\ successShown b p2 = successShown b p1.
Proof.
  intros Hr p1 p2. unfold p2, p1.
  pose proof (ready_validated b p Hr) as Hr1.
  rewrite !after_validateForm, !validateForm_run by done. cbn [fst].
  split; [|split].
  - unfold allRules. by rewrite !rule_validated.
  - intros f.
    rewrite !errorText_validated, !invalid_validated, !fieldValue_validated by done.
    by rewrite rule_validated.
  - by rewrite !successShown_validated.
Qed.

Lemma validateForm_idempotent_witness :
  let p1 := after (validateForm demoBindings) mismatch in
  let p2 := after (validateForm demoBindings) p1 in
  errorText p1 ConfirmPassword = message ConfirmPassword
  /\ errorText p2 ConfirmPassword = errorText p1 ConfirmPassword.
Proof.
  split; [vm_compute; reflexivity|].
  destruct (validateForm_idempotent demoBindings mismatch mismatch_ready) as (_ & H & _).
  exact (proj1 (H ConfirmPassword)).
Defined.

(** C9: the outcome of a validation pass is a function of the four input
    values. Two passes on pages whose inputs hold the same values, whatever
    error texts, invalid markers and success message each page showed
    before, return the same boolean and leave the same error texts, invalid
    markers and success message. *)
Theorem validateForm_deterministic (b b' : bindings) (p q : page) :
  ready b p -> ready b' q ->
  (forall f, fieldValue b p f = fieldValue b' q f) ->
  (validateForm b p).1 = (validateForm b' q).1
  /\ (forall f, errorText (after (validateForm b) p) f
                = errorText (after (validateForm b') q) f
                /\ invalid b (after (validateForm b) p) f
                   = invalid b' (after (validateForm b') q) f)
  /\ successShown b (after (validateForm b) p)
     = successShown b' (after (validateForm b') q).
Proof.
  intros Hp Hq Hv.
  assert (Hrule : forall f, rule b p f = rule b' q f).
  { intros []; simpl; by rewrite !Hv. }
  rewrite !after_validateForm, !validateForm_run by done. cbn [fst].
  split; [|split].
  - unfold allRules. by rewrite !Hrule.
  - intros f. rewrite !errorText_validated, !invalid_validated by done.
    by rewrite Hrule.
  - by rewrite !successShown_validated.
Qed.

Lemma validateForm_deterministic_witness :
  (errorText aliceStale Name = js "old error"
   /\ invalid demoBindings aliceStale Name = true
   /\ successShown demoBindings aliceStale = js "sent")
  /\ (validateForm demoBindings aliceStale).1 = (validateForm demoBindings alice).1
  /\ errorText (after (validateForm demoBindings) aliceStale) Name
     = errorText (after (validateForm demoBindings) alice) Name.
Proof.
  split; [repeat split; vm_compute; reflexivity|].
  assert (Hv : forall f, fieldValue demoBindings aliceStale f
                         = fieldValue demoBindings alice f)
    by (intros []; vm_compute; reflexivity).
  destruct (validateForm_deterministic demoBindings demoBindings aliceStale alice
              aliceStale_ready alice_ready Hv) as (H1 & H2 & _).
  split; [exact H1|exact (proj1 (H2 Name))].
Defined.

(** C10: when the password and its confirmation are both empty, a
    validation pass shows no confirm-password error although it shows the
    password error; on a form whose four inputs are all empty it shows the
    name, email and password errors and no confirm-password error. *)
Theorem empty_confirm_passes (b : bindings) (p : page) :
  ready b p ->
  fieldValue b p Password = [] ->
  fieldValue b p ConfirmPassword = [] ->
  let p' := after (validateForm b) p in
  (errorText p' ConfirmPassword = [] /\ invalid b p' ConfirmPassword = false)
  /\ (errorText p' Password = message Password /\ invalid b p' Password = true)
  /\ (validateForm b p).1 = Normal false
  /\ (fieldValue b p Name = [] -> fieldValue b p Email = [] ->
      forall f, errorText p' f = (if decide (f = ConfirmPassword) then [] else message f)
                /\ invalid b p' f = (if decide (f = ConfirmPassword) then false else true)).
Proof.
  intros Hr Hpw Hc p'. unfold p'.
  rewrite after_validateForm, validateForm_run by done. cbn [fst].
  assert (Hrc : rule b p ConfirmPassword = true).
  { simpl. rewrite Hpw, Hc. by apply bool_decide_eq_true. }
  assert (Hrp : rule b p Password = false) by (simpl; by rewrite Hpw).
  rewrite !errorText_validated, !invalid_validated by done.
  rewrite Hrc, Hrp. unfold allRules. rewrite Hrp, Hrc, !andb_false_r.
  repeat (split; [done|]).
  intros Hn He f. rewrite errorText_validated, invalid_validated by done.
  assert (Hrn : rule b p Name = false) by (simpl; by rewrite Hn).
  assert (Hre : rule b p Email = false) by (simpl; by rewrite He).
  destruct f; rewrite ?Hrn, ?Hre, ?Hrp, ?Hrc; by case_decide.
Qed.

Lemma empty_confirm_passes_witness :
  let p' := after (validateForm demoBindings) emptyForm in
  errorText p' ConfirmPassword = [] /\ errorText p' Password = message Password.
Proof.
  assert (Hpw : fieldValue demoBindings emptyForm Password = [])
    by (vm_compute; reflexivity).
  assert (Hc : fieldValue demoBindings emptyForm ConfirmPassword = [])
    by (vm_compute; reflexivity).
  destruct (empty_confirm_passes demoBindings emptyForm emptyForm_ready Hpw Hc)
    as ((H1 & _) & (H2 & _) & _).
  split; [exact H1|exact H2].
Defined.

(** ** Key release *)

Lemma keyup_run b p f :
  ready b p ->
  keyup b f p = (Normal tt, if rule b p f then cleared b f p else p).
Proof.
  intros Hr. destruct f; simpl;
    unfold nameInput_keyup, emailInput_keyup, passwordInput_keyup,
      confirmPasswordInput_keyup.
  - rewrite (bind_run _ _ _ _ _ (get_value_run b _ Name Hr)).
    rewrite Nat.leb_antisym.
    destruct (negb _); [|done]. by apply (clearError_run b p Name).
  - rewrite (bind_run _ _ _ _ _ (get_value_run b _ Email Hr)).
    destruct (test _ _); [|done]. by apply (clearError_run b p Email).
  - rewrite (bind_run _ _ _ _ _ (get_value_run b _ Password Hr)).
    rewrite Nat.leb_antisym.
    destruct (negb _); [|done]. by apply (clearError_run b p Password).
  - rewrite (bind_run _ _ _ _ _ (get_value_run b _ ConfirmPassword Hr)).
    rewrite (bind_run _ _ _ _ _ (get_value_run b _ Password Hr)).
    destruct (bool_decide _); [|done]. by apply (clearError_run b p ConfirmPassword).
Qed.

Lemma after_keyup b p f :
  ready b p -> after (keyup b f) p = if rule b p f then cleared b f p else p.
Proof. intros Hr. unfold after. by rewrite keyup_run. Qed.

Lemma valueOf_set r v p :
  is_Some (at_ref p r) -> valueOf (modify_ref r (with_value (fun _ => v)) p) r = v.
Proof.
  intros [e He]. unfold valueOf. rewrite at_ref_modify_ref.
  case_decide; [|done]. by rewrite He.
Qed.

Lemma valueOf_other r g p r' :
  r <> r' -> valueOf (modify_ref r g p) r' = valueOf p r'.
Proof.
  intros Hne. unfold valueOf. rewrite at_ref_modify_ref. by case_decide.
Qed.

Lemma ready_typed b p f v : ready b p -> ready b (typed b f v p).
Proof. intros Hr. unfold typed. auto using ready_modify_ref with page. Qed.

Lemma fieldValue_typed b p f g v :
  ready b p ->
  fieldValue b (typed b g v p) f = if decide (f = g) then v else fieldValue b p f.
Proof.
  intros Hr. unfold fieldValue, typed. case_decide as Hfg.
  - subst. apply valueOf_set.
    destruct (ready_input_live b p g Hr) as (e & -> & _). eauto.
  - apply valueOf_other. apply (ready_input_ne b p); [done|]. by intros ->.
Qed.

Lemma errorText_typed b p f g v : errorText (typed b g v p) f = errorText p f.
Proof.
  unfold errorText, typed. rewrite errorSpan_modify_ref. by apply textOf_keep.
Qed.

Lemma invalid_typed b p f g v : invalid b (typed b g v p) f = invalid b p f.
Proof. unfold invalid, typed. by apply hasClass_keep. Qed.

(** C4: the key-release handler of a field looks at the rule of that field
    alone, on the values the inputs hold now. When the rule holds it clears
    the error text and the invalid marker of the field; when it does not,
    the page stays as it is. It writes no error text and sets no invalid
    marker, leaves the other fields, the input values and the success
    message alone, and the handler of the confirmation compares with what
    the password input holds at that moment, also when the password was
    changed after the last validation pass. *)
Theorem keyup_only_clears (b : bindings) (p : page) (f : field) :
  ready b p ->
  let p' := after (keyup b f) p in
  keyup b f p = (Normal tt, p')
  /\ (rule b p f = true -> errorText p' f = [] /\ invalid b p' f = false)
  /\ (rule b p f = false -> p' = p)
  /\ (forall g, g <> f ->
        errorText p' g = errorText p g /\ invalid b p' g = invalid b p g)
  /\ (forall g, (errorText p' g = errorText p g \/ errorText p' g = [])
                /\ (invalid b p' g = true -> invalid b p g = true))
  /\ (forall g, fieldValue b p' g = fieldValue b p g)
  /\ successShown b p' = successShown b p
  /\ (forall v,
        let q := typed b Password v (after (validateForm b) p) in
        after (keyup b ConfirmPassword) q =
          if bool_decide (fieldValue b p ConfirmPassword = v)
          then cleared b ConfirmPassword q else q).
Proof.
  intros Hr p'. subst p'.
  split; [unfold after; by rewrite keyup_run|].
  rewrite (after_keyup b p f) by done.
  split.
  { intros ->. by rewrite errorText_cleared, invalid_cleared, !decide_True by done. }
  split; [by intros ->|].
  split; [|split; [|split; [|split]]].
  - intros g Hg. destruct (rule b p f); [|done].
    by rewrite errorText_cleared, invalid_cleared, !decide_False by done.
  - intros g. destruct (rule b p f); [|by auto].
    rewrite errorText_cleared, invalid_cleared by done.
    case_decide; (split; [by auto|done]).
  - intros g. destruct (rule b p f); [|done]. apply fieldValue_marked.
  - destruct (rule b p f); [|done]. by apply successShown_marked.
  - intros v q. subst q.
    assert (Hv : ready b (validated b p)) by by apply ready_validated.
    rewrite after_validateForm by done.
    rewrite after_keyup by by apply ready_typed.
    cbn [rule]. rewrite !fieldValue_typed by done.
    rewrite decide_False, decide_True by done.
    by rewrite fieldValue_validated.
Qed.

Lemma keyup_only_clears_witness :
  let p1 := after (validateForm demoBindings) mismatch in
  let q := typed demoBindings ConfirmPassword (js "password1") p1 in
  errorText q ConfirmPassword = message ConfirmPassword
  /\ rule demoBindings q ConfirmPassword = true
  /\ errorText (after (keyup demoBindings ConfirmPassword) q) ConfirmPassword = [].
Proof.
  assert (Hq : ready demoBindings
                 (typed demoBindings ConfirmPassword (js "password1")
                    (after (validateForm demoBindings) mismatch))).
  { apply ready_typed. rewrite after_validateForm by apply mismatch_ready.
    apply ready_validated, mismatch_ready. }
  assert (Hrule : rule demoBindings
                    (typed demoBindings ConfirmPassword (js "password1")
                       (after (validateForm demoBindings) mismatch))
                    ConfirmPassword = true) by (vm_compute; reflexivity).
  split; [vm_compute; reflexivity|].
  split; [exact Hrule|].
  destruct (keyup_only_clears demoBindings _ ConfirmPassword Hq) as (_ & H & _).
  exact (proj1 (H Hrule)).
Defined.

(** ** Submission *)

Lemma at_ref_resetPage fm p n :
  at_ref (resetPage fm p) (Some n) =
    (fun e => if inside fm n then with_value defaultValue e else e) <$> at_ref p (Some n).
Proof.
  simpl. rewrite map_lookup_imap. by destruct (elems p !! n).
Qed.

Lemma textOf_resetRef r p r' : textOf (resetRef r p) r' = textOf p r'.
Proof.
  destruct r as [fm|]; [|done]. destruct r' as [n|]; [|done].
  unfold textOf, resetRef. rewrite at_ref_resetPage.
  destruct (at_ref p (Some n)) as [e|]; [|done]. simpl. by destruct (inside fm n).
Qed.

Lemma hasClass_resetRef r p r' t : hasClass (resetRef r p) r' t = hasClass p r' t.
Proof.
  destruct r as [fm|]; [|done]. destruct r' as [n|]; [|done].
  unfold hasClass, resetRef. rewrite at_ref_resetPage.
  destruct (at_ref p (Some n)) as [e|]; [|done]. simpl. by destruct (inside fm n).
Qed.

Lemma valueOf_resetPage fm p n :
  valueOf (resetPage fm p) (Some n) =
    if inside fm n then defaultOf p (Some n) else valueOf p (Some n).
Proof.
  unfold valueOf, defaultOf. rewrite at_ref_resetPage.
  destruct (at_ref p (Some n)) as [e|]; simpl; by destruct (inside fm n).
Qed.

Lemma ids_resetRef r p : ids (resetRef r p) = ids p.
Proof. by destruct r. Qed.

Lemma ready_resetRef b r p : ready b p -> ready b (resetRef r p).
Proof.
  intros (Hok & Hrest). unfold ready. rewrite ids_resetRef. split; [|done].
  destruct r as [fm|]; [|done].
  intros s n Hs. specialize (Hok s n Hs). simpl in Hs, Hok.
  change (id <$> at_ref (resetPage fm p) (Some n) = Some s).
  rewrite at_ref_resetPage. simpl.
  destruct (elems p !! n) as [e|]; simpl in *; [|done].
  by destruct (inside fm n).
Qed.

Lemma defaultOf_keep r g p r' :
  (forall e, defaultValue (g e) = defaultValue e) ->
  defaultOf (modify_ref r g p) r' = defaultOf p r'.
Proof.
  intros Hg. unfold defaultOf. rewrite at_ref_modify_ref.
  case_decide; [|done]. destruct (at_ref p r'); simpl; [|done]. by rewrite Hg.
Qed.

Lemma ready_prevented b p : ready b p -> ready b (prevented p).
Proof. done. Qed.

Lemma errorText_resetRef r p f : errorText (resetRef r p) f = errorText p f.
Proof. unfold errorText, errorSpan. by rewrite ids_resetRef, textOf_resetRef. Qed.

Lemma form_submit_run b p :
  ready b p -> form_submit b p = (Normal tt, submitted b p).
Proof.
  intros Hr. unfold form_submit, bind, preventDefault. fold (prevented p).
  pose proof (ready_prevented b p Hr) as Hp.
  rewrite validateForm_run by done.
  change (allRules b (prevented p)) with (allRules b p).
  pose proof (ready_validated b _ Hp) as Hv.
  unfold submitted. destruct (allRules b p).
  - rewrite successSet_run by done.
    destruct (ready_present b p "contact-form" Hr) as [fm Hfm]; [done|].
    rewrite (ready_form b p Hr), Hfm. done.
  - by rewrite successSet_run.
Qed.

Lemma defaultPrevented_validated b p :
  defaultPrevented (validated b p) = defaultPrevented p.
Proof.
  unfold validated, checked, displayed, allCleared, successSet, cleared, marked.
  repeat match goal with |- context [rule b p ?f] => destruct (rule b p f) end;
    by rewrite !defaultPrevented_modify_ref.
Qed.

Lemma defaultOf_validated b p r : defaultOf (validated b p) r = defaultOf p r.
Proof.
  unfold validated, checked, displayed, allCleared, successSet, cleared, marked.
  repeat match goal with |- context [rule b p ?f] => destruct (rule b p f) end;
    by rewrite !defaultOf_keep.
Qed.

Lemma allRules_true b p : allRules b p = true -> forall f, rule b p f = true.
Proof.
  unfold allRules. intros H f.
  repeat (apply andb_prop in H; destruct H as [H ?]). by destruct f.
Qed.

Lemma defaultPrevented_resetRef r p :
  defaultPrevented (resetRef r p) = defaultPrevented p.
Proof. by destruct r. Qed.

Lemma janeDefault_ready : ready demoBindings janeDefault.
Proof. solve_ready. Qed.

(** C2, as stated, fails: [form.reset()] brings back the default value of
    an input, not the empty string. On a page whose name input has the
    default "Jane", an accepted submission leaves "Jane" in the name
    input. *)
Lemma form_submit_keeps_default :
  ready demoBindings janeDefault
  /\ (forall f, inForm demoBindings f = true)
  /\ fieldValue demoBindings janeDefault Name = js "Alice"
  /\ (validateForm demoBindings janeDefault).1 = Normal true
  /\ fieldValue demoBindings (after (form_submit demoBindings) janeDefault) Name
     = js "Jane"
  /\ fieldValue demoBindings (after (form_submit demoBindings) janeDefault) Name
     <> [].
Proof.
  split; [apply janeDefault_ready|].
  split; [intros []; vm_compute; reflexivity|].
  split; [vm_compute; reflexivity|].
  split; [vm_compute; reflexivity|].
  split; [vm_compute; reflexivity|].
  vm_compute. discriminate.
Qed.

(** C2 (amended): on a page with the structure the script relies on, the
    submit handler returns with the native submission prevented. When the
    validation pass returns true, the success message shows the literal
    text and every one of the four inputs that lies inside the form holds
    its default value again (the empty string where the markup gives none);
    when it returns false, the success message is empty and the error texts
    and invalid markers are those the pass has set. *)
Theorem form_submit_spec (b : bindings) (p : page) :
  ready b p ->
  let p' := after (form_submit b) p in
  form_submit b p = (Normal tt, p')
  /\ defaultPrevented p' = true
  /\ ((validateForm b p).1 = Normal true ->
      successShown b p' = successText
      /\ successText <> []
      /\ forall f, fieldValue b p' f
                   = (if inForm b f then defaultOf p (input b f)
                      else fieldValue b p f)
                   /\ errorText p' f = [] /\ invalid b p' f = false)
  /\ ((validateForm b p).1 = Normal false ->
      successShown b p' = []
      /\ forall f, errorText p' f = errorText (after (validateForm b) p) f
                   /\ invalid b p' f = invalid b (after (validateForm b) p) f
                   /\ fieldValue b p' f = fieldValue b p f).
Proof.
  intros Hr p'. subst p'.
  assert (Hafter : after (form_submit b) p = submitted b p)
    by (unfold after; by rewrite form_submit_run).
  rewrite !Hafter, form_submit_run by done.
  pose proof (ready_prevented b p Hr) as Hp.
  pose proof (ready_validated b _ Hp) as Hv.
  rewrite validateForm_run, after_validateForm by done. cbn [fst].
  split; [done|]. unfold submitted.
  split; [|split].
  - destruct (allRules b p); unfold successSet;
      by rewrite ?defaultPrevented_resetRef, defaultPrevented_modify_ref,
        defaultPrevented_validated.
  - intros Hall. injection Hall as Hall. rewrite Hall.
    pose proof (ready_successSet b _ successText Hv) as Hs.
    split; [|split; [done|]].
    + unfold successShown at 1. rewrite textOf_resetRef.
      by apply successShown_successSet.
    + intros f.
      rewrite errorText_resetRef. unfold invalid. rewrite hasClass_resetRef.
      fold (invalid b (successSet b successText (validated b (prevented p))) f).
      rewrite errorText_successSet, invalid_successSet by done.
      rewrite errorText_validated, invalid_validated by done.
      change (rule b (prevented p) f) with (rule b p f).
      rewrite (allRules_true b p Hall f).
      split; [|done].
      assert (Hkeep : fieldValue b (successSet b successText (validated b (prevented p))) f
                      = fieldValue b p f).
      { by rewrite fieldValue_successSet, fieldValue_validated. }
      unfold inForm. unfold fieldValue in *.
      destruct (form b) as [fm|]; [|exact Hkeep].
      destruct (input b f) as [n|] eqn:Hn; [|done].
      unfold resetRef. rewrite valueOf_resetPage.
      destruct (inside fm n); [|exact Hkeep].
      unfold successSet. rewrite defaultOf_keep by done.
      by rewrite defaultOf_validated.
  - intros Hall. injection Hall as Hall. rewrite Hall.
    split; [by apply successShown_successSet|].
    intros f.
    rewrite errorText_successSet, invalid_successSet, fieldValue_successSet by done.
    rewrite !errorText_validated, !invalid_validated, fieldValue_validated by done.
    done.
Qed.

Lemma form_submit_spec_witness :
  (validateForm demoBindings alice).1 = Normal true
  /\ fieldValue demoBindings alice Name = js "Alice"
  /\ fieldValue demoBindings (after (form_submit demoBindings) alice) Name = []
  /\ successShown demoBindings (after (form_submit demoBindings) alice) = successText.
Proof.
  assert (Hpass : (validateForm demoBindings alice).1 = Normal true)
    by (vm_compute; reflexivity).
  destruct (form_submit_spec demoBindings alice alice_ready) as (_ & _ & H & _).
  destruct (H Hpass) as (Hs & _ & Hf).
  split; [exact Hpass|].
  split; [vm_compute; reflexivity|].
  split; [|exact Hs].
  rewrite (proj1 (Hf Name)). vm_compute. reflexivity.
Defined.

(** ** The error text and the invalid marker go together: proofs *)

Lemma consistent_same_marks b p p' :
  same_marks b p p' -> consistent b p -> consistent b p'.
Proof.
  intros Hm Hc f. destruct (Hm f) as [-> ->]. apply Hc.
Qed.

Lemma same_marks_classes b p r t :
  t <> "invalid" ->
  same_marks b p (modify_ref r (with_classList (DOMTokenList.toggle t)) p).
Proof.
  intros Ht f. unfold errorText, invalid. rewrite errorSpan_modify_ref.
  rewrite textOf_keep by done. split; [done|].
  apply hasClass_toggle_frame. intros [_ H]. by apply Ht.
Qed.

Lemma same_marks_trans b p1 p2 p3 :
  same_marks b p1 p2 -> same_marks b p2 p3 -> same_marks b p1 p3.
Proof.
  intros H1 H2 f. destruct (H1 f) as [<- <-]. apply H2.
Qed.

Lemma same_marks_refl b p : same_marks b p p.
Proof. by intros f. Qed.

Lemma same_marks_themeToggled b p : ready b p -> same_marks b p (themeToggled b p).
Proof.
  intros Hr. unfold themeToggled.
  apply (same_marks_trans b p
           (modify_ref (body b) (with_classList (DOMTokenList.toggle "dark-mode")) p));
    [by apply same_marks_classes|].
  intros f. unfold errorText, invalid. rewrite errorSpan_modify_ref.
  rewrite (hasClass_keep (themeToggleBtn b)) by done. split; [|done].
  apply textOf_other. rewrite errorSpan_modify_ref. intros H.
  by apply (ready_span_toggle b p f).
Qed.

Lemma consistent_validated b p : ready b p -> consistent b (validated b p).
Proof.
  intros Hr f. rewrite errorText_validated, invalid_validated by done.
  pose proof (message_nonempty f). destruct (rule b p f); simpl; split; done.
Qed.

Lemma same_marks_submitted b p :
  ready b p -> same_marks b (validated b p) (submitted b p).
Proof.
  intros Hr f.
  pose proof (ready_prevented b p Hr) as Hp.
  pose proof (ready_validated b _ Hp) as Hv.
  assert (He : forall t, errorText (successSet b t (validated b (prevented p))) f
                         = errorText (validated b p) f).
  { intros t. rewrite errorText_successSet by done.
    by rewrite !errorText_validated by done. }
  assert (Hi : forall t, invalid b (successSet b t (validated b (prevented p))) f
                         = invalid b (validated b p) f).
  { intros t. rewrite invalid_successSet.
    by rewrite !invalid_validated by done. }
  unfold submitted. destruct (allRules b p).
  - rewrite errorText_resetRef. unfold invalid at 1. rewrite hasClass_resetRef.
    split; [apply He|apply Hi].
  - split; [apply He|apply Hi].
Qed.

Lemma ready_submitted b p : ready b p -> ready b (submitted b p).
Proof.
  intros Hr. pose proof (ready_validated b _ (ready_prevented b p Hr)) as Hv.
  unfold submitted. destruct (allRules b p).
  - by apply ready_resetRef, ready_successSet.
  - by apply ready_successSet.
Qed.

Lemma consistent_cleared b p f : ready b p -> consistent b p -> consistent b (cleared b f p).
Proof.
  intros Hr Hc g. rewrite errorText_cleared, invalid_cleared by done.
  case_decide; [done|apply Hc].
Qed.

Lemma after_dispatch b ev p :
  after (dispatch b ev) p = after (listener b ev) (unprevented p).
Proof. reflexivity. Qed.

Lemma listener_step b ev p :
  ready b p -> consistent b p ->
  ready b (after (listener b ev) p) /\ consistent b (after (listener b ev) p).
Proof.
  intros Hr Hc. destruct ev as [|q| | | | |]; cbn [listener].
  - rewrite themeToggleBtn_click_after. destruct (at_ref p (body b)); [|done].
    split.
    + unfold themeToggled. auto using ready_modify_ref with page.
    + eapply consistent_same_marks; [by apply same_marks_themeToggled|done].
  - case_bool_decide; [|done]. unfold after. rewrite faqQuestion_click_eq.
    destruct (at_ref p (sibling q)); [|done].
    destruct (at_ref p (Some q)); cbn [snd]; unfold faqToggled.
    + split; [auto using ready_modify_ref with page|].
      eapply consistent_same_marks; [|exact Hc].
      eapply same_marks_trans; by apply same_marks_classes.
    + split; [auto using ready_modify_ref with page|].
      eapply consistent_same_marks; [|exact Hc]. by apply same_marks_classes.
  - unfold after. rewrite form_submit_run by done. cbn [snd].
    split; [by apply ready_submitted|].
    eapply consistent_same_marks; [by apply same_marks_submitted|].
    by apply consistent_validated.
  - change (nameInput_keyup b) with (keyup b Name). rewrite after_keyup by done.
    destruct (rule b p Name); [|done].
    split; [by apply ready_cleared|by apply consistent_cleared].
  - change (emailInput_keyup b) with (keyup b Email). rewrite after_keyup by done.
    destruct (rule b p Email); [|done].
    split; [by apply ready_cleared|by apply consistent_cleared].
  - change (passwordInput_keyup b) with (keyup b Password). rewrite after_keyup by done.
    destruct (rule b p Password); [|done].
    split; [by apply ready_cleared|by apply consistent_cleared].
  - change (confirmPasswordInput_keyup b) with (keyup b ConfirmPassword). rewrite after_keyup by done.
    destruct (rule b p ConfirmPassword); [|done].
    split; [by apply ready_cleared|by apply consistent_cleared].
Qed.

Lemma act_step b a p :
  ready b p -> consistent b p -> ready b (act b a p) /\ consistent b (act b a p).
Proof.
  intros Hr Hc. destruct a as [ev|f v]; simpl.
  - rewrite after_dispatch. by apply listener_step.
  - split; [by apply ready_typed|].
    intros g. rewrite errorText_typed, invalid_typed. apply Hc.
Qed.

Lemma play_step b l p :
  ready b p -> consistent b p -> ready b (play b l p) /\ consistent b (play b l p).
Proof.
  revert p. induction l as [|a l IH]; intros p Hr Hc; simpl; [done|].
  destruct (act_step b a p Hr Hc) as [Hr' Hc']. by apply IH.
Qed.

(** C5: for each of the four fields the error text is non-empty exactly
    when the invalid marker is set: a validation pass and the submit handler
    bring this about whatever the page showed before, and on a page where it
    holds, every key-release handler, and every sequence of events and of
    changes of the inputs by the visitor, keeps it. *)
Theorem error_iff_invalid (b : bindings) (p : page) :
  ready b p ->
  consistent b (after (validateForm b) p)
  /\ consistent b (after (form_submit b) p)
  /\ (consistent b p ->
      (forall f, consistent b (after (keyup b f) p))
      /\ (forall l, consistent b (play b l p))).
Proof.
  intros Hr. split; [|split].
  - rewrite after_validateForm by done. by apply consistent_validated.
  - unfold after. rewrite form_submit_run by done. cbn [snd].
    eapply consistent_same_marks; [by apply same_marks_submitted|].
    by apply consistent_validated.
  - intros Hc. split.
    + intros f. rewrite after_keyup by done.
      destruct (rule b p f); [by apply consistent_cleared|done].
    + intros l. by apply play_step.
Qed.

Lemma error_iff_invalid_witness :
  let l := [Type_into Name (js "Al"); Fire Submit_form;
            Type_into Name (js "Alice"); Fire Keyup_nameInput;
            Fire Click_themeToggleBtn; Fire (Click_faqQuestion [0; 1; 1])] in
  errorText (play demoBindings (take 2 l) emptyForm) Name = message Name
  /\ errorText (play demoBindings l emptyForm) Name = []
  /\ consistent demoBindings (play demoBindings l emptyForm).
Proof.
  split; [vm_compute; reflexivity|].
  split; [vm_compute; reflexivity|].
  assert (Hc : consistent demoBindings emptyForm).
  { intros []; vm_compute; split; intros H; solve [discriminate H | by destruct H]. }
  destruct (error_iff_invalid demoBindings emptyForm emptyForm_ready) as (_ & _ & H).
  exact (proj2 (H Hc) _).
Defined.

(** ** Initialisation *)

(** On a page whose index is sound and holds every identifier the script
    looks up, the script starts without throwing, leaves the page as it is,
    and its references are those the claims are stated for. *)
Lemma init_ready (p : page) :
  ids_ok p -> Forall (fun s => is_Some (ids p !! s)) requiredIds ->
  exists b, init p = (Normal b, p) /\ ready b p.
Proof.
  intros Hok Hall.
  assert (Hlive : forall s, s ∈ requiredIds -> is_Some (at_ref p (ids p !! s))).
  { intros s Hs. rewrite Forall_forall in Hall.
    destruct (Hall s Hs) as [n Hn]. rewrite Hn.
    destruct (ids_ok_live p s n Hok Hn) as (e & -> & _). eauto. }
  assert (Hadd : forall s, bool_decide (s ∈ requiredIds) = true ->
                   addEventListener (ids p !! s) p = (Normal tt, p)).
  { intros s Hs%bool_decide_eq_true. destruct (Hlive s Hs) as [e He].
    unfold addEventListener. by rewrite get_eq, He. }
  eexists. split.
  - unfold init, bind, getElementById, document_body, querySelectorAll_class.
    rewrite !Hadd by done. reflexivity.
  - split; [done|]. split; [by intros []|]. done.
Qed.

(** ** The scenarios of the specification *)

(** A short name: submission is blocked, only the name field shows its
    error, and the success message stays empty. *)
Example scenario_short_name :
  let p' := after (dispatch demoBindings Submit_form) shortName in
  defaultPrevented p' = true
  /\ errorText p' Name = message Name
  /\ errorText p' Email = [] /\ errorText p' Password = []
  /\ errorText p' ConfirmPassword = []
  /\ successShown demoBindings p' = []
  /\ fieldValue demoBindings p' Name = js "Al".
Proof. vm_compute. repeat split. Qed.

(** A valid form: the success message is set and the four inputs are
    empty again. *)
Example scenario_valid :
  let p' := after (dispatch demoBindings Submit_form) alice in
  successShown demoBindings p' = successText
  /\ forall f, fieldValue demoBindings p' f = [] /\ errorText p' f = [].
Proof. split; [vm_compute; reflexivity|]. intros []; vm_compute; split; reflexivity. Qed.

(** Passwords that differ: only the confirmation shows its error, and
    typing the password into the confirmation clears that error on key
    release, without a validation pass. *)
Example scenario_mismatch :
  let p1 := after (dispatch demoBindings Submit_form) mismatch in
  let p2 := act demoBindings (Fire Keyup_confirmPasswordInput)
              (act demoBindings (Type_into ConfirmPassword (js "password1")) p1) in
  (forall f, errorText p1 f = if decide (f = ConfirmPassword) then message f else [])
  /\ (forall f, errorText p2 f = [] /\ invalid demoBindings p2 f = false)
  /\ successShown demoBindings p2 = [].
Proof.
  split; [intros []; vm_compute; reflexivity|].
  split; [intros []; vm_compute; split; reflexivity|].
  vm_compute. reflexivity.
Qed.

(** * Further properties of the script *)

(** ** Relations that every primitive keeps *)

Section Keeps.

Context (R : page -> page -> Prop).
Hypothesis HR : steady R.

Lemma keeps_ret {A} (a : A) : keeps R (ret a).
Proof. intros p. apply HR. Qed.

Lemma keeps_bind {A B} (c : M A) (k : A -> M B) :
  keeps R c -> (forall a, keeps R (k a)) -> keeps R (bind c k).
Proof.
  intros Hc Hk p. unfold bind. specialize (Hc p).
  destruct (c p) as [[a|e] p1]; simpl in *; [|done].
  eapply (proj2 HR); [exact Hc|apply Hk].
Qed.

Lemma keeps_get {A} r (f : element -> A) : keeps R (get r f).
Proof. intros p. rewrite get_eq. destruct (at_ref p r); apply HR. Qed.

Lemma keeps_edit r g :
  (forall n p, R p (modify n g p)) -> keeps R (edit r g).
Proof.
  intros Hg p. rewrite edit_eq. destruct (at_ref p r); [|apply HR].
  destruct r as [n|]; simpl; [apply Hg|apply HR].
Qed.

Lemma keeps_getElementById s : keeps R (getElementById s).
Proof. intros p. apply HR. Qed.

Lemma keeps_nextElementSibling r : keeps R (nextElementSibling r).
Proof. intros p. destruct r; apply HR. Qed.

Lemma keeps_reset r :
  (forall f p, R p (resetPage f p)) -> keeps R (reset r).
Proof. intros Hr p. destruct r; simpl; [apply Hr|apply HR]. Qed.

Lemma keeps_if {A} (c : bool) (x y : M A) :
  keeps R x -> keeps R y -> keeps R (if c then x else y).
Proof. pose proof HR. by destruct c. Qed.

Hypothesis HW : allows_marks R.

Ltac keeps_steps :=
  repeat first
    [ apply keeps_ret | apply keeps_get | apply keeps_getElementById
    | apply keeps_nextElementSibling | apply keeps_if
    | apply keeps_edit; solve [apply HW]
    | apply keeps_bind; [|intros ?] ].

Lemma keeps_clearError r : keeps R (clearError r).
Proof.
  unfold clearError, get_id, set_textContent, classList_remove.
  keeps_steps.
Qed.

Lemma keeps_displayError r msg : keeps R (displayError r msg).
Proof.
  unfold displayError, get_id, set_textContent, classList_add.
  keeps_steps.
Qed.

Lemma keeps_validateForm b : keeps R (validateForm b).
Proof.
  unfold validateForm, get_value, set_textContent.
  keeps_steps.
Qed.

Lemma keeps_keyup b f : keeps R (keyup b f).
Proof.
  destruct f; simpl;
    unfold nameInput_keyup, emailInput_keyup, passwordInput_keyup,
      confirmPasswordInput_keyup, get_value;
    keeps_steps.
Qed.

Lemma keeps_themeToggleBtn_click b : keeps R (themeToggleBtn_click b).
Proof.
  unfold themeToggleBtn_click, classList_toggle, classList_contains, set_textContent.
  keeps_steps.
Qed.

Lemma keeps_faqQuestion_click q : keeps R (faqQuestion_click q).
Proof.
  pose proof HR. unfold faqQuestion_click, classList_toggle.
  keeps_steps.
Qed.

End Keeps.

Lemma same_values_modify n g p :
  (forall e, value (g e) = value e) -> same_values p (modify n g p).
Proof.
  intros Hv m. simpl. rewrite lookup_alter.
  case_decide; [subst|done]. destruct (elems p !! m); simpl; [|done].
  by rewrite Hv.
Qed.

Lemma steady_same_values : steady same_values.
Proof. split; [done|]. intros p1 p2 p3 H1 H2 n. by rewrite H2. Qed.

Lemma allows_marks_same_values : allows_marks same_values.
Proof. split; intros; by apply same_values_modify. Qed.

Lemma steady_same_flag : steady same_flag.
Proof. split; [done|]. unfold same_flag. congruence. Qed.

Lemma allows_marks_same_flag : allows_marks same_flag.
Proof. by split. Qed.

Lemma keeps_form_submit R b :
  steady R -> allows_marks R ->
  (forall p, R p (prevented p)) -> (forall f p, R p (resetPage f p)) ->
  keeps R (form_submit b).
Proof.
  intros HR HW Hp Hreset. unfold form_submit.
  apply (keeps_bind _ HR); [exact Hp|intros _].
  apply (keeps_bind _ HR); [by apply keeps_validateForm|intros ok].
  apply (keeps_if _ HR); [|apply (keeps_edit _ HR), HW].
  apply (keeps_bind _ HR); [apply (keeps_edit _ HR), HW|intros _].
  by apply (keeps_reset _ HR).
Qed.

(** Every listener but the submit listener. *)
Lemma keeps_listener R b ev :
  steady R -> allows_marks R -> ev <> Submit_form -> keeps R (listener b ev).
Proof.
  intros HR HW Hev. destruct ev as [|q| | | | |]; cbn [listener].
  - by apply keeps_themeToggleBtn_click.
  - apply (keeps_if _ HR); [by apply keeps_faqQuestion_click|by apply keeps_ret].
  - done.
  - by apply (keeps_keyup _ HR HW b Name).
  - by apply (keeps_keyup _ HR HW b Email).
  - by apply (keeps_keyup _ HR HW b Password).
  - by apply (keeps_keyup _ HR HW b ConfirmPassword).
Qed.

(** ** Values and the canceled flag *)

(** X2: the values of the inputs change in one place only, the reset
    after a successful pass. A validation pass, every listener other than
    the submit listener, and the submit listener when the pass does not
    return true, leave every element the value it had, on any page and also
    when they throw. *)
Theorem only_reset_changes_values (b : bindings) (p : page) :
  same_values p (after (validateForm b) p)
  /\ (forall ev, ev <> Submit_form -> same_values p (after (dispatch b ev) p))
  /\ ((validateForm b (prevented p)).1 <> Normal true ->
      same_values p (after (form_submit b) p)).
Proof.
  pose proof steady_same_values as HR.
  pose proof allows_marks_same_values as HW.
  split; [exact (keeps_validateForm _ HR HW b p)|]. split.
  - intros ev Hev. rewrite after_dispatch.
    exact (keeps_listener _ b ev HR HW Hev (unprevented p)).
  - intros Hne.
    pose proof (keeps_validateForm _ HR HW b (prevented p)) as Hv.
    unfold after, form_submit, bind, preventDefault, set_textContent. fold (prevented p).
    destruct (validateForm b (prevented p)) as [[[|]|e] p1]; simpl in *.
    + done.
    + pose proof (keeps_edit _ HR (successMessage b) (with_textContent [])
                    (fun n q => proj1 HW [] n q) p1) as He.
      intros n. rewrite (He n). apply Hv.
    + exact Hv.
Qed.

(** X3: the submit listener cancels the native submission on every page,
    also when the validation throws; no other listener cancels its event. *)
Theorem only_submit_prevents_default (b : bindings) (p : page) :
  defaultPrevented (after (dispatch b Submit_form) p) = true
  /\ defaultPrevented (after (form_submit b) p) = true
  /\ (forall ev, ev <> Submit_form ->
        defaultPrevented (after (dispatch b ev) p) = false).
Proof.
  pose proof steady_same_flag as HR.
  pose proof allows_marks_same_flag as HW.
  assert (Hrest : forall q,
            defaultPrevented (after (form_submit b) q) = true).
  { intros q. unfold after, form_submit.
    unfold bind at 1. unfold preventDefault. fold (prevented q).
    assert (Hk : keeps same_flag
                   (do ok <- validateForm b;
                    if ok then set_textContent (successMessage b) successText;;
                               reset (form b)
                    else set_textContent (successMessage b) [])).
    { apply (keeps_bind _ HR); [by apply keeps_validateForm|intros ok].
      apply (keeps_if _ HR); [|apply (keeps_edit _ HR), HW].
      apply (keeps_bind _ HR); [apply (keeps_edit _ HR), HW|intros _].
      by apply (keeps_reset _ HR). }
    apply (Hk (prevented q)). }
  split; [|split; [apply Hrest|]].
  - rewrite after_dispatch. apply Hrest.
  - intros ev Hev. rewrite after_dispatch.
    exact (keeps_listener _ b ev HR HW Hev (unprevented p)).
Qed.

(** ** Missing elements *)

Lemma throws_bind_l {A B} (c : M A) (k : A -> M B) : throws c -> throws (bind c k).
Proof.
  intros Hc p. specialize (Hc p). unfold bind.
  destruct (c p) as [[a|e] p1]; simpl in *; [done|by destruct e].
Qed.

Lemma throws_bind_r {A B} (c : M A) (k : A -> M B) :
  (forall a, throws (k a)) -> throws (bind c k).
Proof.
  intros Hk p. unfold bind.
  destruct (c p) as [[a|e] p1]; simpl; [apply Hk|by destruct e].
Qed.

Lemma throws_clearError_null : throws (clearError None).
Proof. by apply throws_bind_l. Qed.

(** X4: when one of the four inputs or the success message element is
    missing, so that the script holds [null] for it, a validation pass
    throws a TypeError on every page and returns no verdict, and so does
    the submit listener: it sets no success text and resets nothing. *)
Theorem missing_element_throws (b : bindings) :
  (exists f, input b f = None) \/ successMessage b = None ->
  throws (validateForm b) /\ throws (form_submit b).
Proof.
  intros H.
  assert (Hv : throws (validateForm b)).
  { unfold validateForm. destruct H as [[f Hf]|Hs].
    - destruct f; simpl in Hf; rewrite Hf;
        repeat first [apply throws_clearError_null
                     | apply throws_bind_l; apply throws_clearError_null
                     | apply throws_bind_r; intros _].
    - rewrite Hs. do 4 (apply throws_bind_r; intros _).
      by apply throws_bind_l. }
  split; [done|].
  unfold form_submit. apply throws_bind_r. intros _. by apply throws_bind_l.
Qed.

Lemma missing_element_throws_witness :
  init noSuccess = (Normal noSuccessBindings, noSuccess)
  /\ (validateForm noSuccessBindings noSuccess).1 = Throw TypeError
  /\ (form_submit noSuccessBindings noSuccess).1 = Throw TypeError.
Proof.
  split; [vm_compute; reflexivity|].
  assert (H : (exists f, input noSuccessBindings f = None)
              \/ successMessage noSuccessBindings = None) by (right; reflexivity).
  destruct (missing_element_throws noSuccessBindings H) as [Hv Hs].
  split; [apply Hv|apply Hs].
Defined.

Lemma only_reset_changes_values_witness :
  (validateForm demoBindings (prevented shortName)).1 = Normal false
  /\ same_values shortName (after (form_submit demoBindings) shortName).
Proof.
  assert (H : (validateForm demoBindings (prevented shortName)).1 = Normal false)
    by (vm_compute; reflexivity).
  split; [exact H|].
  apply (proj2 (proj2 (only_reset_changes_values demoBindings shortName))).
  rewrite H. discriminate.
Defined.

Lemma only_submit_prevents_default_witness :
  defaultPrevented (after (dispatch demoBindings Keyup_nameInput) shortName) = false.
Proof.
  apply (proj2 (proj2 (only_submit_prevents_default demoBindings shortName))).
  discriminate.
Defined.

(** X5: when the error display of an input is missing, [clearError] and
    [displayError] throw a TypeError before they touch the class list of the
    input, so the page is left exactly as it was; a validation pass whose
    name input lacks its error display throws at its first step and changes
    nothing. *)
Theorem missing_span_throws (r : option node) (p : page) (e : element)
    (msg : jsstring) :
  at_ref p r = Some e ->
  ids p !! (id e +:+ "-error") = None ->
  clearError r p = (Throw TypeError, p)
  /\ displayError r msg p = (Throw TypeError, p)
  /\ (forall b, nameInput b = r -> validateForm b p = (Throw TypeError, p)).
Proof.
  intros He Hs.
  assert (Hc : clearError r p = (Throw TypeError, p)).
  { unfold clearError, bind, get_id, getElementById, set_textContent.
    by rewrite (get_run _ _ _ _ He), Hs. }
  split; [done|]. split.
  - unfold displayError, bind, get_id, getElementById, set_textContent.
    by rewrite (get_run _ _ _ _ He), Hs.
  - intros b <-. unfold validateForm. unfold bind at 1. by rewrite Hc.
Qed.

Lemma missing_span_throws_witness :
  init noNameError = (Normal demoBindings, noNameError)
  /\ validateForm demoBindings noNameError = (Throw TypeError, noNameError).
Proof.
  split; [vm_compute; reflexivity|].
  assert (He : at_ref noNameError (Some [0; 2; 1]) = Some (el "name" [] [] []))
    by (vm_compute; reflexivity).
  assert (Hs : ids noNameError !! (id (el "name" [] [] []) +:+ "-error") = None)
    by (vm_compute; reflexivity).
  destruct (missing_span_throws (Some [0; 2; 1]) noNameError _ [] He Hs)
    as (_ & _ & H).
  apply H. reflexivity.
Defined.

(** ** The two helpers composed *)

Lemma marked_marked b f t1 cl1 t2 cl2 p :
  marked b f t2 cl2 (marked b f t1 cl1 p) = marked b f t2 (cl2 ∘ cl1) p.
Proof.
  unfold marked. rewrite !errorSpan_modify_ref. apply page_ext.
  - intros n. change (elems ?q !! n) with (at_ref q (Some n)).
    rewrite !at_ref_modify_ref.
    destruct (at_ref p (Some n)) as [[i c t v d]|]; repeat case_decide; done.
  - by rewrite !ids_modify_ref.
  - by rewrite !defaultPrevented_modify_ref.
Qed.

Lemma marked_ext b f t cl cl' p :
  (forall l, cl l = cl' l) -> marked b f t cl p = marked b f t cl' p.
Proof.
  intros Hcl. unfold marked. apply page_ext.
  - intros n. change (elems ?q !! n) with (at_ref q (Some n)).
    rewrite !at_ref_modify_ref.
    destruct (at_ref p (Some n)) as [[i c t' v d]|]; repeat case_decide;
      try done; unfold with_classList, with_textContent; simpl; by rewrite Hcl.
  - by rewrite !ids_modify_ref.
  - by rewrite !defaultPrevented_modify_ref.
Qed.

Lemma cleared_clean b f p :
  errorSpan p f <> input b f ->
  errorText p f = [] -> invalid b p f = false -> cleared b f p = p.
Proof.
  intros Hne Ht Hi. unfold cleared, marked. apply page_ext.
  - intros n. change (elems ?q !! n) with (at_ref q (Some n)).
    rewrite !at_ref_modify_ref.
    unfold errorText, textOf, invalid, hasClass in *.
    destruct (at_ref p (Some n)) as [[i c t v d]|] eqn:Hn;
      repeat case_decide; try done.
    + congruence.
    + match goal with H : input b f = Some n |- _ => rewrite H, Hn in Hi end.
      simpl in *. unfold with_classList. simpl. do 2 f_equal.
      apply bool_decide_eq_false in Hi. unfold DOMTokenList.remove. set_solver.
    + match goal with H : errorSpan p f = Some n |- _ => rewrite H, Hn in Ht end.
      simpl in *. by subst.
  - by rewrite !ids_modify_ref.
  - by rewrite !defaultPrevented_modify_ref.
Qed.

(** X6: on a page with the structure the script relies on, the two
    helpers compose as a display should. Clearing twice is clearing once;
    of two messages displayed on a field the later one stays; clearing
    after displaying is clearing; and on a field that showed no error and
    no invalid marker, displaying a message and clearing it gives back the
    very page there was. *)
Theorem display_clear_round_trip (b : bindings) (p : page) (f : field)
    (m1 m2 : jsstring) :
  ready b p ->
  let clear := after (clearError (input b f)) in
  let display m := after (displayError (input b f) m) in
  clear (clear p) = clear p
  /\ display m2 (display m1 p) = display m2 p
  /\ clear (display m1 p) = clear p
  /\ (errorText p f = [] -> invalid b p f = false -> clear (display m1 p) = p).
Proof.
  intros Hr clear display.
  assert (Hc : forall q, ready b q -> clear q = cleared b f q).
  { intros q Hq. unfold clear, after. by rewrite clearError_run. }
  assert (Hd : forall q m, ready b q -> display m q = displayed b f m q).
  { intros q m Hq. unfold display, after. by rewrite displayError_run. }
  pose proof (ready_cleared b p f Hr) as Hrc.
  pose proof (ready_displayed b p f m1 Hr) as Hrd.
  rewrite (Hd p m1 Hr), (Hd p m2 Hr), (Hd _ m2 Hrd), (Hc p Hr), (Hc _ Hrc), (Hc _ Hrd).
  unfold cleared, displayed.
  rewrite !marked_marked.
  assert (Hcd : marked b f [] (DOMTokenList.remove "invalid" ∘ DOMTokenList.add "invalid") p
                = marked b f [] (DOMTokenList.remove "invalid") p).
  { apply marked_ext. intros l. unfold DOMTokenList.remove, DOMTokenList.add. simpl.
    set_solver. }
  split; [|split; [|split]].
  - apply marked_ext. intros l. unfold DOMTokenList.remove. simpl. set_solver.
  - apply marked_ext. intros l. unfold DOMTokenList.add. simpl. set_solver.
  - exact Hcd.
  - intros Ht Hi. rewrite Hcd. apply cleared_clean; [|done..].
    rewrite (ready_input b p f Hr).
    apply (ready_ne b p _ _ Hr); by destruct f.
Qed.

Lemma display_clear_round_trip_witness :
  after (clearError (input demoBindings Email))
    (after (displayError (input demoBindings Email) (message Email)) emptyForm)
  = emptyForm.
Proof.
  destruct (display_clear_round_trip demoBindings emptyForm Email
              (message Email) [] emptyForm_ready) as (_ & _ & _ & H).
  apply H; vm_compute; reflexivity.
Defined.

(** ** Clicking again *)

Lemma toggled_twice (r : option node) (t : string) (p : page) :
  modify_ref r (with_classList (DOMTokenList.toggle t))
    (modify_ref r (with_classList (DOMTokenList.toggle t)) p) = p.
Proof.
  apply page_ext.
  - intros n. change (elems ?q !! n) with (at_ref q (Some n)).
    rewrite !at_ref_modify_ref.
    destruct (at_ref p (Some n)) as [[i c tx v d]|]; case_decide; try done.
    unfold with_classList. simpl. by rewrite toggle_toggle.
  - by rewrite !ids_modify_ref.
  - by rewrite !defaultPrevented_modify_ref.
Qed.

Lemma modify_ref_comm (r1 r2 : option node) (g1 g2 : element -> element) (p : page) :
  r1 <> r2 ->
  modify_ref r1 g1 (modify_ref r2 g2 p) = modify_ref r2 g2 (modify_ref r1 g1 p).
Proof.
  intros Hne. apply page_ext.
  - intros n. change (elems ?q !! n) with (at_ref q (Some n)).
    rewrite !at_ref_modify_ref.
    destruct (at_ref p (Some n)); repeat case_decide; try done. congruence.
  - by rewrite !ids_modify_ref.
  - by rewrite !defaultPrevented_modify_ref.
Qed.

Lemma faqToggled_twice (q : node) (p : page) : faqToggled q (faqToggled q p) = p.
Proof.
  unfold faqToggled.
  rewrite (modify_ref_comm (sibling q) (Some q)) by apply sibling_self.
  by rewrite !toggled_twice.
Qed.

(** X7: a second click on the same question undoes the first, on every
    page: the whole page is as it was before the two clicks, also when the
    question has no following sibling and the handler throws. *)
Theorem faq_click_twice (q : node) (p : page) :
  after (faqQuestion_click (Some q)) (after (faqQuestion_click (Some q)) p) = p.
Proof.
  unfold after. rewrite (faqQuestion_click_eq q p).
  destruct (at_ref p (sibling q)) as [a|] eqn:Ha.
  - destruct (at_ref p (Some q)) as [e|] eqn:Hq; cbn [snd].
    + rewrite faqQuestion_click_eq.
      assert (H1 : is_Some (at_ref (faqToggled q p) (sibling q))).
      { unfold faqToggled. rewrite !is_Some_at_ref_modify_ref. by rewrite Ha. }
      assert (H2 : is_Some (at_ref (faqToggled q p) (Some q))).
      { unfold faqToggled. rewrite !is_Some_at_ref_modify_ref. by rewrite Hq. }
      destruct H1 as [a' ->], H2 as [e' ->]. cbn [snd]. apply faqToggled_twice.
    + rewrite faqQuestion_click_eq.
      set (p1 := modify_ref (sibling q) (with_classList (DOMTokenList.toggle "show")) p).
      assert (H1 : is_Some (at_ref p1 (sibling q))).
      { unfold p1. rewrite is_Some_at_ref_modify_ref. by rewrite Ha. }
      assert (H2 : at_ref p1 (Some q) = None).
      { unfold p1. rewrite at_ref_modify_ref, Hq. by case_decide. }
      destruct H1 as [a' ->]. rewrite H2. cbn [snd]. apply toggled_twice.
  - cbn [snd]. by rewrite faqQuestion_click_eq, Ha.
Qed.

Lemma themeToggled_dead (b : bindings) (p : page) :
  at_ref p (themeToggleBtn b) = None ->
  themeToggled b p
  = modify_ref (body b) (with_classList (DOMTokenList.toggle "dark-mode")) p.
Proof.
  intros Hb. unfold themeToggled. apply modify_ref_dead.
  rewrite at_ref_modify_ref, Hb. by case_decide.
Qed.

(** X8: one activation of the theme toggle, on a page that has the page
    root and the button, flips the dark-mode marker and makes the label name
    the opposite mode ("Switch to Light Mode" exactly when dark mode is on);
    it changes no other class token, no class list but the root's, no text
    but the button's, and no value. *)
Theorem themeToggle_click_once (b : bindings) (p : page) :
  is_Some (at_ref p (body b)) -> is_Some (at_ref p (themeToggleBtn b)) ->
  let p' := after (themeToggleBtn_click b) p in
  themeToggleBtn_click b p = (Normal tt, p')
  /\ darkMode b p' = negb (darkMode b p)
  /\ label b p' = (if darkMode b p' then js "Switch to Light Mode"
                   else js "Switch to Dark Mode")
  /\ (forall r t, ~ (r = body b /\ t = "dark-mode") ->
        hasClass p' r t = hasClass p r t)
  /\ (forall r, r <> themeToggleBtn b -> textOf p' r = textOf p r)
  /\ (forall r, valueOf p' r = valueOf p r).
Proof.
  intros Hbody Hbtn p'. unfold p', after.
  rewrite themeToggleBtn_click_run by done. cbn [snd].
  split; [done|]. split; [by apply darkMode_themeToggled|]. split.
  - rewrite label_themeToggled, darkMode_themeToggled by done. done.
  - unfold themeToggled. split; [|split].
    + intros r t Hrt. rewrite hasClass_keep by done.
      by apply hasClass_toggle_frame.
    + intros r Hr. rewrite textOf_other by done. by apply textOf_keep.
    + intros r. by rewrite !valueOf_keep.
Qed.

Lemma themeToggle_click_once_witness :
  darkMode demoBindings emptyForm = false
  /\ darkMode demoBindings (after (themeToggleBtn_click demoBindings) emptyForm) = true
  /\ label demoBindings (after (themeToggleBtn_click demoBindings) emptyForm)
     = js "Switch to Light Mode".
Proof.
  assert (H1 : is_Some (at_ref emptyForm (body demoBindings)))
    by (vm_compute; eauto).
  assert (H2 : is_Some (at_ref emptyForm (themeToggleBtn demoBindings)))
    by (vm_compute; eauto).
  destruct (themeToggle_click_once demoBindings emptyForm H1 H2) as (_ & Hd & Hl & _).
  split; [vm_compute; reflexivity|].
  assert (Hd' : darkMode demoBindings
                  (after (themeToggleBtn_click demoBindings) emptyForm) = true)
    by (rewrite Hd; vm_compute; reflexivity).
  split; [exact Hd'|]. rewrite Hl, Hd'. reflexivity.
Defined.

(** X9: whatever label the button started with, three activations of the
    theme toggle leave the page that one activation leaves: after the first
    activation the toggle is an involution on the whole page. *)
Theorem themeToggle_thrice (b : bindings) (p : page) :
  let click := after (themeToggleBtn_click b) in
  click (click (click p)) = click p.
Proof.
  intros click. unfold click.
  rewrite (themeToggleBtn_click_after b p).
  destruct (at_ref p (body b)) as [e|] eqn:He.
  - set (p1 := themeToggled b p).
    assert (Hb1 : is_Some (at_ref p1 (body b))).
    { unfold p1, themeToggled. rewrite !is_Some_at_ref_modify_ref. by rewrite He. }
    rewrite (themeToggleBtn_click_after b p1).
    destruct Hb1 as [e1 He1]. rewrite He1.
    assert (Hb2 : is_Some (at_ref (themeToggled b p1) (body b))).
    { unfold themeToggled. rewrite !is_Some_at_ref_modify_ref. by rewrite He1. }
    rewrite themeToggleBtn_click_after. destruct Hb2 as [e2 ->].
    destruct (at_ref p (themeToggleBtn b)) as [eb|] eqn:Hbtn.
    + apply themeToggled_twice; [by rewrite He1|].
      unfold p1. rewrite label_themeToggled by by rewrite Hbtn.
      by rewrite darkMode_themeToggled by by rewrite He.
    + assert (Hd1 : at_ref p1 (themeToggleBtn b) = None).
      { unfold p1. rewrite themeToggled_dead by done.
        rewrite at_ref_modify_ref, Hbtn. by case_decide. }
      rewrite (themeToggled_dead b (themeToggled b p1)).
      * rewrite (themeToggled_dead b p1) by done. apply toggled_twice.
      * rewrite themeToggled_dead by done.
        rewrite at_ref_modify_ref, Hd1. by case_decide.
  - by repeat (rewrite (themeToggleBtn_click_after b p), He).
Qed.

(** ** The email and the name checks *)

(** X10: after a validation pass the email field shows no error exactly
    when its trimmed value is a local part, [@], a domain, a dot and a last
    label, each part non-empty and free of white space and of [@]; the
    key-release handler of the email clears the error under the same
    condition and leaves it otherwise. *)
Theorem email_error_iff (b : bindings) (p : page) :
  ready b p ->
  (errorText (after (validateForm b) p) Email = []
   <-> address (trim (fieldValue b p Email)))
  /\ (errorText (after (validateForm b) p) Email = message Email
      <-> ~ address (trim (fieldValue b p Email)))
  /\ (address (trim (fieldValue b p Email)) ->
      errorText (after (keyup b Email) p) Email = [])
  /\ (~ address (trim (fieldValue b p Email)) ->
      after (keyup b Email) p = p).
Proof.
  intros Hr. rewrite after_validateForm, errorText_validated, after_keyup by done.
  unfold address. rewrite <- emailRegex_accepts. cbn [rule].
  pose proof (message_nonempty Email) as Hm.
  destruct (test emailRegex (trim (fieldValue b p Email))).
  - split; [done|]. split; [split; [done|by intros []]|].
    split; [|by intros []].
    intros _. rewrite errorText_cleared by done. by rewrite decide_True.
  - split; [split; [done|by intros]|]. split; [done|]. split; [by intros|done].
Qed.

Lemma email_error_iff_witness :
  address (trim (fieldValue demoBindings alice Email))
  /\ errorText (after (validateForm demoBindings) alice) Email = [].
Proof.
  assert (H : address (trim (fieldValue demoBindings alice Email))).
  { exists (js "alice"), (js "example"), (js "com").
    split; [vm_compute; reflexivity|].
    split; [discriminate|]. split; [discriminate|]. split; [discriminate|].
    repeat constructor. }
  split; [exact H|].
  exact (proj2 (proj1 (email_error_iff demoBindings alice alice_ready)) H).
Defined.

Lemma trimStart_app_whitespace (a s : jsstring) :
  Forall (fun c => isWhiteSpace c = true) a -> trimStart (a ++ s) = trimStart s.
Proof. induction 1 as [|c a Hc _ IH]; simpl; [done|]. by rewrite Hc. Qed.

Lemma trimEnd_app_whitespace (s a : jsstring) :
  Forall (fun c => isWhiteSpace c = true) a -> trimEnd (s ++ a) = trimEnd s.
Proof.
  intros Ha. unfold trimEnd. rewrite rev_app_distr.
  rewrite trimStart_app_whitespace; [done|].
  by apply List.Forall_rev.
Qed.

Lemma trimStart_app_r (s a : jsstring) :
  Forall (fun c => isWhiteSpace c = true) a ->
  trimStart (s ++ a) = [] /\ trimStart s = []
  \/ trimStart (s ++ a) = trimStart s ++ a.
Proof.
  intros Ha. induction s as [|c s IH]; simpl.
  - left. split; [by apply trimStart_whitespace|done].
  - destruct (isWhiteSpace c); [exact IH|by right].
Qed.

(** White space around a string does not survive the trim. *)
Lemma trim_padded (a v c : jsstring) :
  Forall (fun x => isWhiteSpace x = true) a ->
  Forall (fun x => isWhiteSpace x = true) c ->
  trim (a ++ v ++ c) = trim v.
Proof.
  intros Ha Hc. unfold trim. rewrite trimStart_app_whitespace by done.
  destruct (trimStart_app_r v c Hc) as [[-> ->]| ->]; [done|].
  by apply trimEnd_app_whitespace.
Qed.

(** X11: white space typed before or after a name or an email address
    does not count: with or without it a validation pass returns the same
    verdict and shows the same errors on every field. In the password it
    does count: a password reaches the length of eight with its white
    space included. *)
Theorem padding_ignored (b : bindings) (p : page) (f : field)
    (a v c : jsstring) :
  ready b p ->
  f = Name \/ f = Email ->
  Forall (fun x => isWhiteSpace x = true) a ->
  Forall (fun x => isWhiteSpace x = true) c ->
  let q := typed b f (a ++ v ++ c) p in
  let q0 := typed b f v p in
  (validateForm b q).1 = (validateForm b q0).1
  /\ (forall g, errorText (after (validateForm b) q) g
                = errorText (after (validateForm b) q0) g
                /\ invalid b (after (validateForm b) q) g
                   = invalid b (after (validateForm b) q0) g)
  /\ (8 <= length (a ++ v ++ c) ->
      errorText (after (validateForm b) (typed b Password (a ++ v ++ c) p)) Password
      = []).
Proof.
  intros Hr Hf Ha Hc q q0.
  assert (Hq : ready b q) by by apply ready_typed.
  assert (Hq0 : ready b q0) by by apply ready_typed.
  assert (Hrule : forall g, rule b q g = rule b q0 g).
  { intros g. unfold q, q0.
    destruct Hf as [-> | ->]; destruct g; cbn [rule];
      rewrite !fieldValue_typed by done; repeat case_decide; try done;
      by rewrite trim_padded. }
  rewrite !after_validateForm, !validateForm_run by done. cbn [fst].
  split; [unfold allRules; by rewrite !Hrule|]. split.
  - intros g. rewrite !errorText_validated, !invalid_validated by done.
    by rewrite Hrule.
  - intros Hlen.
    rewrite after_validateForm, errorText_validated by by apply ready_typed.
    cbn [rule]. rewrite fieldValue_typed, decide_True by done.
    apply Nat.ltb_ge in Hlen. by rewrite Hlen.
Qed.

Lemma padding_ignored_witness :
  fieldValue demoBindings padded Name = js "  " ++ js "Alice" ++ js " "
  /\ (validateForm demoBindings padded).1 = Normal true.
Proof.
  assert (Ha : Forall (fun x => isWhiteSpace x = true) (js "  "))
    by (repeat constructor).
  assert (Hc : Forall (fun x => isWhiteSpace x = true) (js " "))
    by (repeat constructor).
  destruct (padding_ignored demoBindings padded Name (js "  ") (js "Alice") (js " ")
              ltac:(solve_ready) (or_introl eq_refl) Ha Hc) as (H & _).
  split; [vm_compute; reflexivity|].
  transitivity (validateForm demoBindings
                  (typed demoBindings Name (js "  " ++ js "Alice" ++ js " ") padded)).1;
    [vm_compute; reflexivity|].
  rewrite H. vm_compute. reflexivity.
Defined.

(** ** Starting the script *)

Lemma addEventListener_eq (p : page) (s : string) :
  ids_ok p ->
  addEventListener (ids p !! s) p
  = (match ids p !! s with Some _ => Normal tt | None => Throw TypeError end, p).
Proof.
  intros Hok. unfold addEventListener. rewrite get_eq.
  destruct (ids p !! s) as [n|] eqn:Hs; [|done].
  by destruct (ids_ok_live p s n Hok Hs) as (e & -> & _).
Qed.

(** X12: on a page whose index is sound, the script starts without
    throwing exactly when the toggle button, the form and the four inputs
    exist, and then its references are the elements with those identifiers;
    when one of the six is missing it throws a TypeError. A missing success
    message or error display does not stop it. In both cases the page is
    left as it was. *)
Theorem init_completes_iff (p : page) :
  ids_ok p ->
  (Forall (fun s => is_Some (ids p !! s)) listenedIds ->
   exists b, init p = (Normal b, p)
             /\ themeToggleBtn b = ids p !! "theme-toggle"
             /\ form b = ids p !! "contact-form"
             /\ (forall f, input b f = ids p !! fieldId f)
             /\ successMessage b = ids p !! "form-success-message")
  /\ (~ Forall (fun s => is_Some (ids p !! s)) listenedIds ->
      init p = (Throw TypeError, p)).
Proof.
  intros Hok.
  unfold init, bind, getElementById, document_body, querySelectorAll_class.
  rewrite !addEventListener_eq by done.
  unfold listenedIds. rewrite !Forall_cons, Forall_nil.
  destruct (ids p !! "theme-toggle") as [n1|] eqn:H1;
    [|split; [by intros ([? ?] & _)|done]].
  destruct (ids p !! "contact-form") as [n2|] eqn:H2;
    [|split; [by intros (_ & [? ?] & _)|done]].
  destruct (ids p !! "name") as [n3|] eqn:H3;
    [|split; [by intros (_ & _ & [? ?] & _)|done]].
  destruct (ids p !! "email") as [n4|] eqn:H4;
    [|split; [by intros (_ & _ & _ & [? ?] & _)|done]].
  destruct (ids p !! "password") as [n5|] eqn:H5;
    [|split; [by intros (_ & _ & _ & _ & [? ?] & _)|done]].
  destruct (ids p !! "confirm-password") as [n6|] eqn:H6;
    [|split; [by intros (_ & _ & _ & _ & _ & [? ?] & _)|done]].
  split.
  - intros _. eexists. split; [reflexivity|]. simpl.
    split; [done|]. split; [done|]. split; [by intros []|done].
  - intros Hn. destruct Hn. eauto 10.
Qed.

Lemma init_completes_iff_witness :
  (exists b, init noSuccess = (Normal b, noSuccess) /\ successMessage b = None)
  /\ init noPassword = (Throw TypeError, noPassword).
Proof.
  assert (Hok1 : ids_ok noSuccess) by solve_ids_ok.
  assert (Hok2 : ids_ok noPassword) by solve_ids_ok.
  split.
  - destruct (proj1 (init_completes_iff noSuccess Hok1)) as (b & Hb & _ & _ & _ & Hs).
    + unfold listenedIds.
      repeat (apply Forall_cons; split; [vm_compute; eauto|]); constructor.
    + exists b. split; [exact Hb|]. rewrite Hs. vm_compute. reflexivity.
  - apply (proj2 (init_completes_iff noPassword Hok2)).
    unfold listenedIds. rewrite !Forall_cons.
    intros (_ & _ & _ & _ & [n Hn] & _). vm_compute in Hn. discriminate Hn.
Defined.

(** ** Submitting again *)

Lemma fieldValue_submitted_pass b p :
  ready b p ->
  (forall f, inForm b f = true /\ defaultOf p (input b f) = []) ->
  allRules b p = true ->
  forall f, fieldValue b (submitted b p) f = [].
Proof.
  intros Hr Hmarkup Hall f. destruct (Hmarkup f) as [Hin Hdef].
  unfold submitted. rewrite Hall.
  unfold inForm in Hin. unfold fieldValue.
  destruct (form b) as [fm|]; [|done].
  destruct (input b f) as [n|] eqn:Hn; [|done].
  unfold resetRef. rewrite valueOf_resetPage, Hin.
  unfold successSet. rewrite defaultOf_keep by done.
  by rewrite defaultOf_validated.
Qed.

Lemma after_form_submit b p : ready b p -> after (form_submit b) p = submitted b p.
Proof. intros Hr. unfold after. by rewrite form_submit_run. Qed.

(** X13: a second submission right after an accepted one is rejected. On a
    page whose inputs lie in the form and have empty defaults, when the pass
    returns true the first submission shows the success text and empties the
    inputs; the second one then finds them empty, blanks the success
    message, and shows the name, email and password errors and no
    confirm-password error. *)
Theorem submit_twice (b : bindings) (p : page) :
  ready b p ->
  (forall f, inForm b f = true /\ defaultOf p (input b f) = []) ->
  (validateForm b p).1 = Normal true ->
  let p1 := after (form_submit b) p in
  let p2 := after (form_submit b) p1 in
  successShown b p1 = successText
  /\ (validateForm b p1).1 = Normal false
  /\ successShown b p2 = []
  /\ (forall f, errorText p2 f = (if decide (f = ConfirmPassword) then [] else message f)
                /\ fieldValue b p2 f = []).
Proof.
  intros Hr Hmarkup Hpass p1 p2.
  rewrite validateForm_run in Hpass by done. injection Hpass as Hall.
  pose proof (ready_submitted b p Hr) as Hr1.
  assert (Hp1 : p1 = submitted b p) by by apply after_form_submit.
  assert (Hv1 : forall f, fieldValue b p1 f = []).
  { rewrite Hp1. by apply fieldValue_submitted_pass. }
  rewrite <- Hp1 in Hr1.
  assert (Hrule : forall f, rule b p1 f = bool_decide (f = ConfirmPassword)).
  { intros []; cbn [rule]; rewrite !Hv1; done. }
  assert (Hall1 : allRules b p1 = false).
  { unfold allRules. by rewrite (Hrule Name). }
  assert (Hp2 : p2 = submitted b p1) by by apply after_form_submit.
  split.
  { rewrite Hp1. unfold submitted. rewrite Hall.
    unfold successShown. rewrite textOf_resetRef.
    apply successShown_successSet, ready_validated, ready_prevented, Hr. }
  split; [by rewrite validateForm_run, Hall1|].
  split.
  { rewrite Hp2. unfold submitted. rewrite Hall1.
    apply successShown_successSet, ready_validated, ready_prevented, Hr1. }
  intros f. rewrite Hp2.
  destruct (same_marks_submitted b p1 Hr1 f) as [-> _].
  rewrite errorText_validated, Hrule by done. split.
  - by case_bool_decide; case_decide.
  - unfold submitted. rewrite Hall1.
    rewrite fieldValue_successSet, fieldValue_validated. exact (Hv1 f).
Qed.

Lemma submit_twice_witness :
  let p2 := after (form_submit demoBindings) (after (form_submit demoBindings) alice) in
  successShown demoBindings p2 = [] /\ errorText p2 Name = message Name.
Proof.
  assert (Hmarkup : forall f, inForm demoBindings f = true
                              /\ defaultOf alice (input demoBindings f) = [])
    by (intros []; split; vm_compute; reflexivity).
  assert (Hpass : (validateForm demoBindings alice).1 = Normal true)
    by (vm_compute; reflexivity).
  destruct (submit_twice demoBindings alice alice_ready Hmarkup Hpass)
    as (_ & _ & Hs & Hf).
  split; [exact Hs|exact (proj1 (Hf Name))].
Defined.

(** ** The three features keep to themselves *)

Lemma quiet_refl b p : quiet b p p.
Proof. by repeat split. Qed.

Lemma contains_add_other t t' l :
  t <> t' -> DOMTokenList.contains t' (DOMTokenList.add t l) = DOMTokenList.contains t' l.
Proof.
  intros Hne. unfold DOMTokenList.contains, DOMTokenList.add.
  apply bool_decide_ext. set_solver.
Qed.

Lemma contains_remove_other t t' l :
  t <> t' ->
  DOMTokenList.contains t' (DOMTokenList.remove t l) = DOMTokenList.contains t' l.
Proof.
  intros Hne. unfold DOMTokenList.contains, DOMTokenList.remove.
  apply bool_decide_ext. set_solver.
Qed.

Lemma quiet_marked b p q f t cl :
  (forall t' l, t' <> "invalid" ->
     DOMTokenList.contains t' (cl l) = DOMTokenList.contains t' l) ->
  errorSpan p f <> themeToggleBtn b ->
  quiet b p q -> quiet b p (marked b f t cl q).
Proof.
  intros Hcl Hne (Hi & Hc & Hl). unfold marked, quiet, label.
  rewrite !ids_modify_ref. split; [done|]. split.
  - intros r t' Ht'. rewrite hasClass_token by (intros l; by apply Hcl).
    rewrite hasClass_keep by done. by apply Hc.
  - rewrite textOf_keep by done. rewrite textOf_other; [done|].
    unfold errorSpan. rewrite Hi. exact Hne.
Qed.

Lemma quiet_cleared b p q f :
  ready b p -> quiet b p q -> quiet b p (cleared b f q).
Proof.
  intros Hr Hq. apply quiet_marked; [|by apply ready_span_toggle|done].
  intros t' l Ht'. by apply contains_remove_other.
Qed.

Lemma quiet_checked b p q f ok :
  ready b p -> quiet b p q -> quiet b p (checked b f ok q).
Proof.
  intros Hr Hq. destruct ok; [done|].
  apply quiet_marked; [|by apply ready_span_toggle|done].
  intros t' l Ht'. by apply contains_add_other.
Qed.

Lemma quiet_successSet b p q t :
  ready b p -> quiet b p q -> quiet b p (successSet b t q).
Proof.
  intros Hr (Hi & Hc & Hl). unfold successSet, quiet, label.
  rewrite ids_modify_ref. split; [done|]. split.
  - intros r t' Ht'. rewrite hasClass_keep by done. by apply Hc.
  - rewrite textOf_other; [done|].
    rewrite (ready_successMessage b p Hr), (ready_themeToggleBtn b p Hr).
    by apply (ready_ne b p _ _ Hr).
Qed.

Lemma quiet_resetRef b p q r : quiet b p q -> quiet b p (resetRef r q).
Proof.
  intros (Hi & Hc & Hl). unfold quiet, label.
  rewrite ids_resetRef, textOf_resetRef. split; [done|]. split; [|done].
  intros r' t' Ht'. rewrite hasClass_resetRef. by apply Hc.
Qed.

Lemma quiet_validated b p q :
  ready b p -> quiet b p q -> quiet b p (validated b q).
Proof.
  intros Hr Hq. unfold validated, allCleared.
  repeat first [apply quiet_checked | apply quiet_successSet
               | apply quiet_cleared]; done.
Qed.

Lemma quiet_formEvent b p ev :
  ready b p -> formEvent ev = true -> quiet b p (after (dispatch b ev) p).
Proof.
  intros Hr Hev. rewrite after_dispatch.
  assert (Hu : ready b (unprevented p)) by done.
  assert (Hq : quiet b p (unprevented p)) by by repeat split.
  assert (Hk : forall f, quiet b p (after (keyup b f) (unprevented p))).
  { intros f. rewrite after_keyup by done.
    destruct (rule b (unprevented p) f); [by apply quiet_cleared|done]. }
  destruct ev; try discriminate Hev; cbn [listener].
  - rewrite after_form_submit by done. unfold submitted.
    assert (Hv : quiet b p (validated b (prevented (unprevented p)))).
    { apply quiet_validated; [done|]. by repeat split. }
    destruct (allRules b (unprevented p)).
    + by apply quiet_resetRef, quiet_successSet.
    + by apply quiet_successSet.
  - apply (Hk Name).
  - apply (Hk Email).
  - apply (Hk Password).
  - apply (Hk ConfirmPassword).
Qed.

(** X14: the three features keep to themselves. On a page with the
    structure the script relies on, a submission or a key release in the
    form changes neither the dark-mode marker, nor the label of the toggle
    button, nor any marker of the FAQ; a click on the theme toggle or on an
    FAQ question changes no error text, no invalid marker and not the
    success message; a click on the theme toggle changes no FAQ marker and a
    click on an FAQ question changes neither the dark-mode marker nor the
    label. *)
Theorem features_independent (b : bindings) (p : page) (ev : event) :
  ready b p ->
  let p' := after (dispatch b ev) p in
  (formEvent ev = true ->
   darkMode b p' = darkMode b p /\ label b p' = label b p
   /\ forall q, answerShown p' q = answerShown p q
                /\ questionActive p' q = questionActive p q)
  /\ (formEvent ev = false ->
      (forall f, errorText p' f = errorText p f /\ invalid b p' f = invalid b p f)
      /\ successShown b p' = successShown b p)
  /\ (ev = Click_themeToggleBtn ->
      forall q, answerShown p' q = answerShown p q
                /\ questionActive p' q = questionActive p q)
  /\ (forall q, ev = Click_faqQuestion q ->
      darkMode b p' = darkMode b p /\ label b p' = label b p).
Proof.
  intros Hr p'. unfold p'. rewrite after_dispatch.
  assert (Hu : ready b (unprevented p)) by done.
  assert (Hform : formEvent ev = true ->
            quiet b p (after (listener b ev) (unprevented p))).
  { intros Hev. rewrite <- after_dispatch. by apply quiet_formEvent. }
  assert (Hclick : forall q, ready b q -> formEvent ev = false ->
            same_marks b q (after (listener b ev) q)
            /\ successShown b (after (listener b ev) q) = successShown b q).
  { intros q Hq Hev.
    destruct ev as [|qu| | | | |]; try discriminate Hev; cbn [listener].
    - rewrite themeToggleBtn_click_after.
      destruct (at_ref q (body b)); [|done].
      split; [by apply same_marks_themeToggled|].
      unfold successShown, themeToggled. rewrite textOf_other.
      + by apply textOf_keep.
      + rewrite (ready_successMessage b q Hq), (ready_themeToggleBtn b q Hq).
        by apply (ready_ne b q _ _ Hq).
    - case_bool_decide; [|done]. unfold after. rewrite faqQuestion_click_eq.
      destruct (at_ref q (sibling qu)); [|done].
      assert (H1 : same_marks b q
                     (modify_ref (sibling qu)
                        (with_classList (DOMTokenList.toggle "show")) q))
        by by apply same_marks_classes.
      destruct (at_ref q (Some qu)); cbn [snd]; unfold faqToggled.
      + split.
        * apply (same_marks_trans b _ _ _ H1). by apply same_marks_classes.
        * unfold successShown. by rewrite !textOf_keep.
      + split; [exact H1|]. unfold successShown. by rewrite textOf_keep. }
  assert (Htheme : forall q0 q,
            answerShown (after (themeToggleBtn_click b) q0) q = answerShown q0 q
            /\ questionActive (after (themeToggleBtn_click b) q0) q
               = questionActive q0 q).
  { intros q0 q. rewrite themeToggleBtn_click_after.
    destruct (at_ref q0 (body b)); [|done].
    unfold answerShown, questionActive, themeToggled.
    rewrite !(hasClass_keep (themeToggleBtn b)) by done.
    by rewrite !hasClass_toggle_frame by by intros [_ ?]. }
  assert (Hfaq : forall q0 q,
            darkMode b (after (faqQuestion_click (Some q)) q0) = darkMode b q0
            /\ label b (after (faqQuestion_click (Some q)) q0) = label b q0).
  { intros q0 q. unfold after. rewrite faqQuestion_click_eq.
    destruct (at_ref q0 (sibling q)); [|done].
    destruct (at_ref q0 (Some q)); cbn [snd];
      unfold faqToggled, darkMode, label;
      rewrite ?hasClass_toggle_frame by (by intros [_ ?]);
      by rewrite ?textOf_keep. }
  split; [|split; [|split]].
  - intros Hev. destruct (Hform Hev) as (_ & Hc & Hl).
    split; [by apply Hc|]. split; [done|].
    intros q. split; by apply Hc.
  - intros Hev. destruct (Hclick (unprevented p) Hu Hev) as [Hm Hs].
    split; [exact Hm|exact Hs].
  - intros ->. intros q. exact (Htheme (unprevented p) q).
  - intros q ->. cbn [listener]. case_bool_decide; [|done].
    exact (Hfaq (unprevented p) q).
Qed.

Lemma features_independent_witness :
  let p1 := after (dispatch demoBindings Click_themeToggleBtn) shortName in
  darkMode demoBindings p1 = true
  /\ darkMode demoBindings (after (dispatch demoBindings Submit_form) p1) = true.
Proof.
  assert (Hd : darkMode demoBindings
                 (after (dispatch demoBindings Click_themeToggleBtn) shortName) = true)
    by (vm_compute; reflexivity).
  assert (Hr : ready demoBindings
                 (after (dispatch demoBindings Click_themeToggleBtn) shortName)).
  { rewrite after_dispatch. apply listener_step; [apply shortName_ready|].
    intros []; vm_compute; split; intros H; solve [discriminate H | by destruct H]. }
  split; [exact Hd|].
  destruct (features_independent demoBindings _ Submit_form Hr) as (H & _).
  rewrite (proj1 (H eq_refl)). exact Hd.
Defined.
